(** * hwinfo: the sensor logger [syslog.py]

    A shallow embedding of [LogSensors] (src/syslog.py) and the properties of
    its selection, formatting, collection, delivery and scheduling code.

    Conventions of the embedding.
    - A Python [str] is a [string]; every character is a code point below 256.
    - A Python object is a [pyval]; a [dict] is an association list in
      insertion order (Python dicts iterate in insertion order).
    - A raised exception is the [Err] case of [result]; evaluation order is the
      source's, so the first exception raised by the source is the one
      reported.
    - [re] patterns are modelled by their parsed form ([regex]): the regular
      operators and the zero-width assertions ([^], [$], [\b], look-around);
      a pattern string is what [re.compile] would turn into it.
    - Non-integer numbers are exact rationals ([Q]); the rounding of binary64
      arithmetic is not modelled.  An [int] that no [float] can hold raises
      [OverflowError] where the source converts or divides it. *)

From Stdlib Require Import List String Ascii ZArith QArith Qround Qabs Bool Lia.
From Stdlib Require Import DecimalString.
Import ListNotations.

Local Open Scope list_scope.
Local Open Scope string_scope.

Set Implicit Arguments.
Set Warnings "-register-all".


(* ------------------------------------------------------------------ *)
(** ** Exceptions and the result monad *)

Inductive exc : Type :=
| TypeError
| IndexError
| KeyError
| ValueError
| AttributeError
| ZeroDivisionError
| OverflowError
| UnicodeDecodeError.

Inductive result (A : Type) : Type :=
| Ok (a : A)
| Err (e : exc).

Arguments Ok {A} a.
Arguments Err {A} e.

Definition bind {A B : Type} (r : result A) (k : A -> result B) : result B :=
  match r with
  | Ok a => k a
  | Err e => Err e
  end.

Notation "x <- c ;; k" := (bind c (fun x => k))
  (at level 61, c at next level, right associativity).

(** A list comprehension whose element expression can raise: elements are
    evaluated left to right and the first exception aborts the whole list. *)
Fixpoint mapM {A B : Type} (f : A -> result B) (l : list A) : result (list B) :=
  match l with
  | [] => Ok []
  | a :: l' => b <- f a ;; bs <- mapM f l' ;; Ok (b :: bs)
  end.

(** [functools.reduce(f, l)] with no initial value: the first element seeds
    the accumulator, and an empty [l] raises [TypeError]. *)
Fixpoint reduce_from {A : Type} (f : A -> A -> result A) (acc : A) (l : list A)
  : result A :=
  match l with
  | [] => Ok acc
  | b :: l' => acc' <- f acc b ;; reduce_from f acc' l'
  end.

Definition reduce {A : Type} (f : A -> A -> result A) (l : list A) : result A :=
  match l with
  | [] => Err TypeError
  | a :: l' => reduce_from f a l'
  end.

(* ------------------------------------------------------------------ *)
(** ** Python objects *)

Inductive pyval : Type :=
| VNone
| VBool (b : bool)
| VInt (z : Z)
| VFloat (q : Q)
| VStr (s : string)
| VList (l : list pyval)
| VDict (d : list (string * pyval)).

Definition dict : Type := list (string * pyval).

Module Dict.

Fixpoint get (d : dict) (k : string) : option pyval :=
  match d with
  | [] => None
  | (k', v) :: d' => if String.eqb k' k then Some v else get d' k
  end.

Definition mem (d : dict) (k : string) : bool :=
  match get d k with Some _ => true | None => false end.

(** [d[k] = v]: an existing key keeps its position, a new key goes last. *)
Fixpoint set (d : dict) (k : string) (v : pyval) : dict :=
  match d with
  | [] => [(k, v)]
  | (k', v') :: d' =>
      if String.eqb k' k then (k', v) :: d' else (k', v') :: set d' k v
  end.

(** [d.update(u)]: the items of [u] are assigned in order. *)
Definition update (d u : dict) : dict :=
  fold_left (fun acc kv => set acc (fst kv) (snd kv)) u d.

(** [del d[k]]; the caller checks that [k] is present. *)
Definition remove (d : dict) (k : string) : dict :=
  filter (fun kv => negb (String.eqb (fst kv) k)) d.

(** A dict display [{k1: v1, ...}]: later duplicates overwrite. *)
Definition literal (items : dict) : dict := update [] items.


End Dict.

(** [m[k]] on a dict. *)
Definition getitem (d : dict) (k : string) : result pyval :=
  match Dict.get d k with
  | Some v => Ok v
  | None => Err KeyError
  end.

(** [x.keys()] paired with [x[key]]: only a dict has the method. *)
Definition items_of (x : pyval) : result dict :=
  match x with
  | VDict d => Ok d
  | _ => Err AttributeError
  end.

(* ------------------------------------------------------------------ *)
(** ** Regular expressions and [re.match] *)

(** The parsed form of a pattern.  [Assert a] is a zero-width assertion: it
    matches the empty text at a position of the subject exactly when [a]
    holds of the text before the position and the text after it; [^], [$],
    [\b] and the look-around groups are assertions. *)
Inductive regex : Type :=
| Void
| Eps
| Chr (c : ascii)
| Dot
| Assert (a : string -> string -> bool)
| Cat (r1 r2 : regex)
| Alt (r1 r2 : regex)
| Star (r : regex).

(** The pattern that matches the characters of [s] literally. *)
Fixpoint Lit (s : string) : regex :=
  match s with
  | EmptyString => Eps
  | String c s' => Cat (Chr c) (Lit s')
  end.

Definition newline : ascii := "010"%char.

(** [^]: the start of the subject. *)
Definition Bol : regex :=
  Assert (fun before _ => match before with EmptyString => true | _ => false end).

(** [$]: the end of the subject, or just before a newline that ends it. *)
Definition Eol : regex :=
  Assert (fun _ after =>
            match after with
            | EmptyString => true
            | String c EmptyString => Ascii.eqb c newline
            | _ => false
            end).

(** [matches r before s after]: in a subject [before ++ s ++ after], the
    pattern [r] matches the part [s]; [.] matches any character but a
    newline. *)
Inductive matches : regex -> string -> string -> string -> Prop :=
| MEps b a : matches Eps b "" a
| MChr c b a : matches (Chr c) b (String c "") a
| MDot c b a : c <> newline -> matches Dot b (String c "") a
| MAssert f b a : f b a = true -> matches (Assert f) b "" a
| MCat r1 r2 b s1 s2 a :
    matches r1 b s1 (s2 ++ a) -> matches r2 (b ++ s1) s2 a ->
    matches (Cat r1 r2) b (s1 ++ s2) a
| MAltL r1 r2 b s a : matches r1 b s a -> matches (Alt r1 r2) b s a
| MAltR r1 r2 b s a : matches r2 b s a -> matches (Alt r1 r2) b s a
| MStarNil r b a : matches (Star r) b "" a
| MStarApp r b s1 s2 a :
    matches r b s1 (s2 ++ a) -> matches (Star r) (b ++ s1) s2 a ->
    matches (Star r) b (s1 ++ s2) a.

(** [r] matches the empty text between [before] and [after]. *)
Fixpoint nullable (r : regex) (before after : string) : bool :=
  match r with
  | Void => false
  | Eps => true
  | Chr _ => false
  | Dot => false
  | Assert a => a before after
  | Cat r1 r2 => nullable r1 before after && nullable r2 before after
  | Alt r1 r2 => nullable r1 before after || nullable r2 before after
  | Star _ => true
  end.

(** What is left of [r] once it has taken the character [c] that stands
    between [before] and [after]. *)
Fixpoint deriv (c : ascii) (r : regex) (before after : string) : regex :=
  match r with
  | Void => Void
  | Eps => Void
  | Chr c' => if Ascii.eqb c' c then Eps else Void
  | Dot => if Ascii.eqb c newline then Void else Eps
  | Assert _ => Void
  | Cat r1 r2 =>
      if nullable r1 before (String c after)
      then Alt (Cat (deriv c r1 before after) r2) (deriv c r2 before after)
      else Cat (deriv c r1 before after) r2
  | Alt r1 r2 => Alt (deriv c r1 before after) (deriv c r2 before after)
  | Star r' => Cat (deriv c r' before after) (Star r')
  end.

Fixpoint fullmatch_from (r : regex) (before s : string) : bool :=
  match s with
  | EmptyString => nullable r before ""
  | String c s' => fullmatch_from (deriv c r before s') (before ++ String c "") s'
  end.

(** [re.fullmatch(r, s)] is not None. *)
Definition re_fullmatch (r : regex) (s : string) : bool := fullmatch_from r "" s.

Fixpoint match_from (r : regex) (before s : string) : bool :=
  nullable r before s ||
  match s with
  | EmptyString => false
  | String c s' => match_from (deriv c r before s') (before ++ String c "") s'
  end.

(** [re.match(r, s)] is not None: the pattern is anchored at the start of
    [s] only, so it succeeds as soon as it matches some part of [s] that
    starts [s]. *)
Definition re_match (r : regex) (s : string) : bool := match_from r "" s.

(* ------------------------------------------------------------------ *)
(** ** [LogSensors.select_readings] *)

Definition list_add (a b : list pyval) : result (list pyval) := Ok (a ++ b)%list.

(** The keys of [sensors_data] that pass the comprehension's filter
    [re.match(sensor_device[0], key)], each with [sensors_data[key]]. *)
Definition matching (p : regex) (d : dict) : dict :=
  filter (fun kv => re_match p (fst kv)) d.

Fixpoint select_readings (sensors_data : pyval) (sensor_device : list regex)
  : result (list pyval) :=
  match sensor_device with
  | [] =>
      (* len != 1: the second comprehension evaluates sensor_device[0] for
         the first key, or reduce meets an empty list *)
      d <- items_of sensors_data ;;
      match d with
      | [] => Err TypeError
      | _ :: _ => Err IndexError
      end
  | [p] =>
      d <- items_of sensors_data ;;
      Ok (map snd (matching p d))
  | p :: rest =>
      d <- items_of sensors_data ;;
      subs <- mapM (fun kv => select_readings (snd kv) rest) (matching p d) ;;
      reduce list_add subs
  end.

(* ------------------------------------------------------------------ *)
(** ** Strings: [str(int)], [' '.join], [json.dumps] *)

(** [str(z)] for an [int]. *)
Definition str_of_int (z : Z) : string := NilZero.string_of_int (Z.to_int z).

Definition dquote : string := String "034"%char "".

Definition hex_digit (n : nat) : ascii :=
  if Nat.ltb n 10 then ascii_of_nat (48 + n) else ascii_of_nat (87 + n).

(** The replacement [json] makes for one character of a string when
    [ensure_ascii] is on (the default): the two-character escapes, and
    [\u00xx] for every other character outside the printable ASCII range. *)
Definition json_escape_char (c : ascii) : string :=
  let n := nat_of_ascii c in
  if Nat.eqb n 34 then "\" ++ dquote
  else if Nat.eqb n 92 then "\\"
  else if Nat.eqb n 10 then "\n"
  else if Nat.eqb n 13 then "\r"
  else if Nat.eqb n 9 then "\t"
  else if Nat.eqb n 8 then "\b"
  else if Nat.eqb n 12 then "\f"
  else if Nat.leb 32 n && Nat.leb n 126 then String c ""
  else "\u00" ++ String (hex_digit (n / 16)) (String (hex_digit (n mod 16)) "").

Fixpoint json_escape (s : string) : string :=
  match s with
  | EmptyString => ""
  | String c s' => json_escape_char c ++ json_escape s'
  end.

Definition json_string (s : string) : string := dquote ++ json_escape s ++ dquote.

Fixpoint spaces (n : nat) : string :=
  match n with
  | O => ""
  | S n' => String " " (spaces n')
  end.

(** What the runtime supplies and the program only reads. *)
Record clock_reading : Type := {
  strftime_utc : string;     (* strftime('%b %d %X') of the UTC reading *)
  isoformat_local : string   (* astimezone().isoformat() of the same reading *)
}.

Record runtime : Type := {
  nodename : string;                 (* os.uname().nodename *)
  basename_file : string;            (* os.path.basename(__file__) *)
  getpid : Z;                        (* os.getpid() *)
  now : nat -> clock_reading;        (* the n-th call of datetime.now *)
  float_repr : Q -> string;          (* float.__repr__ *)
  json_loads : string -> result pyval; (* json.loads *)
  decode : string -> result string   (* bytes.decode() *)
}.

Section Runtime.

Variable rt : runtime.

(** [json.dumps(v, indent=indent)] at nesting depth [level]; with an indent
    the item separator is [","] followed by a new line, without it [", "]. *)
Fixpoint json_dumps_at (indent : option nat) (level : nat) (v : pyval) : string :=
  let opening :=
    match indent with
    | Some n => String newline (spaces (n * S level))
    | None => ""
    end in
  let separator :=
    match indent with
    | Some n => "," ++ String newline (spaces (n * S level))
    | None => ", "
    end in
  let closing :=
    match indent with
    | Some n => String newline (spaces (n * level))
    | None => ""
    end in
  match v with
  | VNone => "null"
  | VBool true => "true"
  | VBool false => "false"
  | VInt z => str_of_int z
  | VFloat q => float_repr rt q
  | VStr s => json_string s
  | VList [] => "[]"
  | VList l =>
      "[" ++ opening
          ++ String.concat separator (map (json_dumps_at indent (S level)) l)
          ++ closing ++ "]"
  | VDict [] => "{}"
  | VDict d =>
      "{" ++ opening
          ++ String.concat separator
               (map (fun kv => json_string (fst kv) ++ ": "
                               ++ json_dumps_at indent (S level) (snd kv)) d)
          ++ closing ++ "}"
  end.

Definition json_dumps (v : pyval) : string := json_dumps_at None 0 v.

(* ------------------------------------------------------------------ *)
(** ** [LogSensors.format_message] *)

(** An [int] operand; [bool] is a subclass of [int]. *)
Definition as_int (v : pyval) : result Z :=
  match v with
  | VInt z => Ok z
  | VBool b => Ok (if b then 1 else 0)%Z
  | _ => Err TypeError
  end.

(** The least magnitude that no [float] holds: a number of this
    magnitude or more rounds beyond the largest [float]. *)
Definition float_bound : Z := (2 ^ 1024 - 2 ^ 970)%Z.

(** The conversion of the exact number [q] to [float] raises
    [OverflowError]. *)
Definition overflows (q : Q) : bool :=
  Qle_bool (inject_Z float_bound) (Qabs q).

(** [float(x)] for an [int] operand of mixed arithmetic. *)
Definition to_float (x : Z) : result Q :=
  if overflows (inject_Z x) then Err OverflowError else Ok (inject_Z x).

(** [a + b]; an [int] added to a [float] is converted first. *)
Definition py_add (a b : pyval) : result pyval :=
  match a, b with
  | VInt x, VInt y => Ok (VInt (x + y))
  | VInt x, VBool y => Ok (VInt (x + (if y then 1 else 0)))
  | VBool x, VInt y => Ok (VInt ((if x then 1 else 0) + y))
  | VBool x, VBool y => Ok (VInt ((if x then 1 else 0) + (if y then 1 else 0)))
  | VInt x, VFloat y => x' <- to_float x ;; Ok (VFloat (x' + y))
  | VFloat x, VInt y => y' <- to_float y ;; Ok (VFloat (x + y'))
  | VBool x, VFloat y => Ok (VFloat (inject_Z (if x then 1 else 0) + y))
  | VFloat x, VBool y => Ok (VFloat (x + inject_Z (if y then 1 else 0)))
  | VFloat x, VFloat y => Ok (VFloat (x + y))
  | VStr x, VStr y => Ok (VStr (x ++ y))
  | VList x, VList y => Ok (VList (x ++ y)%list)
  | _, _ => Err TypeError
  end.

(** [a / n] for the [int] [n]: true division, always a [float]; the
    quotient of two [int]s that no [float] holds raises [OverflowError]. *)
Definition py_truediv (a : pyval) (n : Z) : result pyval :=
  match a with
  | VInt x =>
      if Z.eqb n 0 then Err ZeroDivisionError
      else if overflows (inject_Z x / inject_Z n) then Err OverflowError
      else Ok (VFloat (inject_Z x / inject_Z n))
  | VBool x =>
      if Z.eqb n 0 then Err ZeroDivisionError
      else Ok (VFloat (inject_Z (if x then 1 else 0) / inject_Z n))
  | VFloat x =>
      if Z.eqb n 0 then Err ZeroDivisionError
      else Ok (VFloat (x / inject_Z n))
  | _ => Err TypeError
  end.

(** Lines 35-43: [(Facility << 3) | Priority], with the defaults 3 and 6. *)
Definition priority_value (message : dict) : result Z :=
  value <- match Dict.get message "Facility" with
           | Some f => f' <- as_int f ;; Ok (Z.shiftl f' 3)
           | None => Ok (Z.shiftl 3 3)
           end ;;
  match Dict.get message "Priority" with
  | Some p => p' <- as_int p ;; Ok (Z.lor value p')
  | None => Ok (Z.lor value 6)
  end.

(** Lines 58-59: [reduce(lambda a, b: a + b, readings) / len(readings)].
    A value that is not a list is a [str] or a [dict], whose elements are
    strings and whose sum cannot be divided, or is not iterable at all. *)
Definition mean_of (readings : pyval) : result pyval :=
  match readings with
  | VList l =>
      total <- reduce py_add l ;;
      py_truediv total (Z.of_nat (List.length l))
  | _ => Err TypeError
  end.

(** The key [message['name']] of the dict display, hashed once every key
    and value of the display is evaluated.  Keys of the modelled dicts are
    strings: a list or dict is unhashable and raises, and a hashable name of
    another type is outside the model and reported the same way. *)
Definition as_key (v : pyval) : result string :=
  match v with
  | VStr s => Ok s
  | _ => Err TypeError
  end.

(** Lines 54-62: the object handed to [json.dumps], that is [message] after
    [update] and [del message['readings']]. *)
Definition payload (timereported : clock_reading) (message : dict) : result dict :=
  name <- getitem message "name" ;;
  readings <- getitem message "readings" ;;
  mean <- mean_of readings ;;
  key <- as_key name ;;
  let updated :=
    Dict.update message
      (Dict.literal [("hostname", VStr (nodename rt));
                     ("timereported", VStr (isoformat_local timereported));
                     (key, mean)]) in
  if Dict.mem updated "readings"
  then Ok (Dict.remove updated "readings")
  else Err KeyError.

(** The first token: [strftime(f'<{value}>%b %d %X')]. *)
Definition header (value : Z) (timereported : clock_reading) : string :=
  "<" ++ str_of_int value ++ ">" ++ strftime_utc timereported.

(** [timereported] is the reading of [datetime.now(timezone.utc)] taken on
    line 45. *)
Definition format_message (timereported : clock_reading) (message : dict)
  : result string :=
  value <- priority_value message ;;
  body <- payload timereported message ;;
  Ok (String.concat " "
        [header value timereported;
         nodename rt;
         basename_file rt ++ "[" ++ str_of_int (getpid rt) ++ "]:";
         "@cee:";
         json_dumps (VDict body)]).

End Runtime.

(* ------------------------------------------------------------------ *)
(** ** Text of the disk tool: [splitlines], [split], [int] *)

Definition carriage_return : ascii := "013"%char.

(** [bytes.splitlines()]: lines end at [\n], [\r] or [\r\n]; the line ends
    are dropped and a final unterminated line is kept. *)
Fixpoint splitlines_from (cur : string) (s : string) : list string :=
  match s with
  | EmptyString =>
      match cur with
      | EmptyString => []
      | _ => [cur]
      end
  | String c s' =>
      if Ascii.eqb c newline then cur :: splitlines_from "" s'
      else if Ascii.eqb c carriage_return then
        match s' with
        | String c' s'' =>
            if Ascii.eqb c' newline
            then cur :: splitlines_from "" s''
            else cur :: splitlines_from "" s'
        | EmptyString => cur :: splitlines_from "" s'
        end
      else splitlines_from (cur ++ String c "") s'
  end.

Definition splitlines (s : string) : list string := splitlines_from "" s.

Definition is_ascii (c : ascii) : bool := Nat.ltb (nat_of_ascii c) 128.

Fixpoint all_chars (f : ascii -> bool) (s : string) : bool :=
  match s with
  | EmptyString => true
  | String c s' => f c && all_chars f s'
  end.

(** [str.isspace] on one character below 256. *)
Definition is_space (c : ascii) : bool :=
  let n := nat_of_ascii c in
  (Nat.leb 9 n && Nat.leb n 13) || (Nat.leb 28 n && Nat.leb n 32)
  || Nat.eqb n 133 || Nat.eqb n 160.

(** [str.split()]: the maximal runs of characters that are not whitespace. *)
Fixpoint split_from (tok : string) (s : string) : list string :=
  match s with
  | EmptyString =>
      match tok with
      | EmptyString => []
      | _ => [tok]
      end
  | String c s' =>
      if is_space c then
        match tok with
        | EmptyString => split_from "" s'
        | _ => tok :: split_from "" s'
        end
      else split_from (tok ++ String c "") s'
  end.

Definition split (s : string) : list string := split_from "" s.

Definition is_digit (c : ascii) : bool :=
  let n := nat_of_ascii c in Nat.leb 48 n && Nat.leb n 57.

(** The digits of an [int] literal: decimal digits, with single underscores
    allowed between digits only. *)
Fixpoint int_digits (acc : Z) (after_digit : bool) (s : string) : option Z :=
  match s with
  | EmptyString => if after_digit then Some acc else None
  | String c s' =>
      if is_digit c
      then int_digits (10 * acc + Z.of_nat (nat_of_ascii c - 48)) true s'
      else if Ascii.eqb c "_"%char
           then (if after_digit then int_digits acc false s' else None)
           else None
  end.

(** [int(tok)] on a token of [split()]: such a token holds no whitespace,
    so the stripping [int] does first leaves it unchanged. *)
Definition py_int (tok : string) : result Z :=
  let parsed :=
    match tok with
    | String "-"%char digits => option_map Z.opp (int_digits 0 false digits)
    | String "+"%char digits => int_digits 0 false digits
    | _ => int_digits 0 false tok
    end in
  match parsed with
  | Some z => Ok z
  | None => Err ValueError
  end.

(** [line[i]] on a list. *)
Definition index {A : Type} (l : list A) (i : nat) : result A :=
  match nth_error l i with
  | Some a => Ok a
  | None => Err IndexError
  end.

(** [`x and y`] where evaluating [y] can raise. *)
Definition and_then (x : bool) (y : result bool) : result bool :=
  if x then y else Ok false.

Definition nonempty {A : Type} (l : list A) : bool :=
  match l with
  | [] => false
  | _ :: _ => true
  end.

Definition head_is (line : list string) (tok : string) : bool :=
  match line with
  | [] => false
  | t :: _ => String.eqb t tok
  end.

(** Lines 93-98: the three tests of the loop body, on the tokens of one
    line. *)
Definition scan_row (message : dict) (line : list string) : result dict :=
  message <-
    (if nonempty line && (head_is line "190" || head_is line "194")
     then tok <- index line 9 ;;
          n <- py_int tok ;;
          Ok (Dict.set message "readings" (VList [VInt n]))
     else Ok message) ;;
  is_model <-
    and_then (nonempty line && head_is line "Device")
             (t <- index line 1 ;; Ok (String.eqb t "Model:")) ;;
  let message :=
    if is_model
    then Dict.set message "model" (VStr (String.concat " " (skipn 2 line)))
    else message in
  is_serial <-
    and_then (nonempty line && head_is line "Serial")
             (t <- index line 1 ;; Ok (String.eqb t "Number:")) ;;
  Ok (if is_serial
      then Dict.set message "serial" (VStr (String.concat " " (skipn 2 line)))
      else message).

(** Lines 92-98: the body of the loop over the lines of the tool's output;
    [line.decode()] is the runtime's. *)
Definition scan_line (rt : runtime) (message : dict) (raw : string)
  : result dict :=
  text <- decode rt raw ;;
  scan_row message (split text).

(** Lines 87-98: the message built from the tool's standard output. *)
Fixpoint scan_lines (rt : runtime) (message : dict) (lines : list string)
  : result dict :=
  match lines with
  | [] => Ok message
  | raw :: rest =>
      message' <- scan_line rt message raw ;; scan_lines rt message' rest
  end.

Definition disk_message (rt : runtime) (disk_name : string) (stdout : string)
  : result dict :=
  scan_lines rt [("name", VStr disk_name)] (splitlines stdout).

(* ------------------------------------------------------------------ *)
(** ** Configuration, state and effects *)

(** The object loaded from the configuration file. *)
Record config : Type := {
  logger_addr : string;
  logger_port : Z;
  INTERVAL : Z;
  disk_names : list string;
  disk_devices : list (string * string);
  disk_kinds : option (list (string * string));
  sensor_names : list string;
  sensor_devices : list (string * list regex)
}.

Fixpoint assoc {A : Type} (m : list (string * A)) (k : string) : option A :=
  match m with
  | [] => None
  | (k', a) :: m' => if String.eqb k' k then Some a else assoc m' k
  end.

(** [m[k]] on a mapping of the configuration. *)
Definition lookup {A : Type} (m : list (string * A)) (k : string) : result A :=
  match assoc m k with
  | Some a => Ok a
  | None => Err KeyError
  end.

(** What the program does to the outside, in the order it does it. *)
Inductive event : Type :=
| EvShell (cmd : string)                    (* create_subprocess_shell *)
| EvPrint (text : string)                   (* print *)
| EvConnect (addr : string) (port : Z)      (* open_connection *)
| EvWrite (bytes : string)                  (* writer.write *)
| EvClose.                                  (* writer.close *)

(** [self.data], the number of clock readings taken so far, and the trace. *)
Record state : Type := {
  data : list string;
  ticks : nat;
  trace : list event
}.

Definition emit (e : event) (s : state) : state :=
  {| data := data s; ticks := ticks s; trace := trace s ++ [e] |}.

Definition tick (s : state) : state :=
  {| data := data s; ticks := S (ticks s); trace := trace s |}.

(** [self.data.append(line)]. *)
Definition append_data (line : string) (s : state) : state :=
  {| data := data s ++ [line]; ticks := ticks s; trace := trace s |}.

Definition set_data (d : list string) (s : state) : state :=
  {| data := d; ticks := ticks s; trace := trace s |}.

(** [str.encode()], UTF-8, of characters below 256. *)
Fixpoint encode (s : string) : string :=
  match s with
  | EmptyString => ""
  | String c s' =>
      let n := nat_of_ascii c in
      if Nat.ltb n 128 then String c (encode s')
      else String (ascii_of_nat (192 + n / 64))
             (String (ascii_of_nat (128 + n mod 64)) (encode s'))
  end.

(** Where a task of the event loop stands: not started yet, suspended in an
    [await], or finished. *)
Inductive pc : Type :=
| DiskStart (disk_name : string)       (* load_disk(name), not started *)
| DiskSpawning (disk_name : string)    (* in create_subprocess_shell *)
| DiskReading (disk_name : string)     (* in sensors.communicate() *)
| SensorsStart                         (* load_sensors(), not started *)
| SensorsSpawning
| SensorsReading
| SinkStart                            (* send_data(), not started *)
| SinkConnecting                       (* in open_connection *)
| SinkDraining                         (* in writer.drain() *)
| SinkClosing                          (* in writer.wait_closed() *)
| Returned
| Raised (e : exc).

Section Agent.

Variable rt : runtime.
Variable cfg : config.
Variable dry_run : bool.

(** Runs [format_message] on [message] and appends the line to [self.data];
    the clock is read once unless the priority value raised before. *)
Definition append_formatted (message : dict) (s : state) : state * result unit :=
  match format_message rt (now rt (ticks s)) message with
  | Ok line => (append_data line (tick s), Ok tt)
  | Err e =>
      (match priority_value message with
       | Ok _ => tick s
       | Err _ => s
       end, Err e)
  end.

Definition finish (r : state * result unit) : state * pc :=
  match snd r with
  | Ok _ => (fst r, Returned)
  | Err e => (fst r, Raised e)
  end.

(** Lines 69-81: the command line of the disk tool. *)
Definition load_disk_command (disk_name : string) : result string :=
  device <-
    (match assoc (disk_devices cfg) disk_name with
     | Some d => Ok d
     | None => lookup (disk_devices cfg) "__default__"
     end) ;;
  let kind :=
    match disk_kinds cfg with
    | Some kinds =>
        match assoc kinds disk_name with
        | Some k => "-d " ++ k
        | None => ""
        end
    | None => ""
    end in
  Ok ("sudo smartctl -Ai " ++ kind ++ " " ++ device).

(** Lines 87-101: [load_disk] from the moment [communicate] has returned
    [stdout]. *)
Definition load_disk (disk_name : string) (stdout : string) (s : state)
  : state * result unit :=
  match disk_message rt disk_name stdout with
  | Err e => (s, Err e)
  | Ok message =>
      if Dict.mem message "readings"
      then append_formatted message s
      else (s, Ok tt)
  end.

(** Lines 113-122: the loop over the configured sensor names. *)
Fixpoint sensors_loop (sensor_data : pyval) (names : list string) (s : state)
  : state * result unit :=
  match names with
  | [] => (s, Ok tt)
  | sensor_name :: rest =>
      match (sensor_device <- lookup (sensor_devices cfg) sensor_name ;;
             readings <- select_readings sensor_data sensor_device ;;
             Ok [("name", VStr sensor_name); ("readings", VList readings)]) with
      | Err e => (s, Err e)
      | Ok message =>
          match append_formatted message s with
          | (s', Ok _) => sensors_loop sensor_data rest s'
          | (s', Err e) => (s', Err e)
          end
      end
  end.

(** Lines 111-122: [load_sensors] from the moment [communicate] has
    returned [stdout]. *)
Definition load_sensors (stdout : string) (s : state) : state * result unit :=
  match (text <- decode rt stdout ;; json_loads rt text) with
  | Err e => (s, Err e)
  | Ok sensor_data => sensors_loop sensor_data (sensor_names cfg) s
  end.

(** Lines 125-134: [send_data] up to its first [await]. *)
Definition send_data (s : state) : state * pc :=
  match data s with
  | [] => (s, Returned)
  | _ :: _ =>
      if dry_run
      then (set_data []
              (emit (EvPrint (json_dumps_at rt (Some 2%nat) 0
                                (VList (map VStr (data s))))) s),
            Returned)
      else (emit (EvConnect (logger_addr cfg) (logger_port cfg)) s,
            SinkConnecting)
  end.

(** Lines 136-140: one turn of the [while] loop, up to the next [await]. *)
Definition send_data_loop (s : state) : state * pc :=
  match data s with
  | [] => (emit EvClose s, SinkClosing)
  | line :: rest =>
      (set_data rest (emit (EvWrite (encode (line ++ String newline ""))) s),
       SinkDraining)
  end.

(** One task runs from where it stands to its next [await] or to its end;
    [resp] is what the awaited operation returned (the bytes read, for
    [communicate]). *)
Definition resume (p : pc) (resp : string) (s : state) : state * pc :=
  match p with
  | DiskStart n =>
      match load_disk_command n with
      | Ok cmd => (emit (EvShell cmd) s, DiskSpawning n)
      | Err e => (s, Raised e)
      end
  | DiskSpawning n => (s, DiskReading n)
  | DiskReading n => finish (load_disk n resp s)
  | SensorsStart => (emit (EvShell "sensors -j") s, SensorsSpawning)
  | SensorsSpawning => (s, SensorsReading)
  | SensorsReading => finish (load_sensors resp s)
  | SinkStart => send_data s
  | SinkConnecting => send_data_loop s
  | SinkDraining => send_data_loop s
  | SinkClosing => (s, Returned)
  | Returned => (s, Returned)
  | Raised e => (s, Raised e)
  end.

(* ------------------------------------------------------------------ *)
(** ** The event loop and [LogSensors.main] *)

(** The loop keeps a first-in first-out queue of tasks that can run, each
    with the result it is resumed with, and the tasks suspended on input or
    output; [failure] is the exception [gather] passes on to [main]. *)
Record loop : Type := {
  st : state;
  ready : list (pc * string);
  blocked : list pc;
  failure : option exc
}.

(** What the loop does next: run the task at the head of the queue, or
    learn that the operation the [i]-th suspended task waits for is done. *)
Inductive choice : Type :=
| RunNext
| Complete (i : nat) (resp : string).

Fixpoint remove_nth {A : Type} (i : nat) (l : list A) : list A :=
  match i, l with
  | _, [] => []
  | O, _ :: l' => l'
  | S i', a :: l' => a :: remove_nth i' l'
  end.

Definition exec_choice (c : choice) (l : loop) : option loop :=
  match failure l with
  | Some _ => None
  | None =>
      match c with
      | RunNext =>
          match ready l with
          | [] => None
          | (p, resp) :: rest =>
              let (s', p') := resume p resp (st l) in
              Some (match p' with
                    | Returned =>
                        {| st := s'; ready := rest;
                           blocked := blocked l; failure := None |}
                    | Raised e =>
                        {| st := s'; ready := rest;
                           blocked := blocked l; failure := Some e |}
                    | _ =>
                        {| st := s'; ready := rest;
                           blocked := blocked l ++ [p']; failure := None |}
                    end)
          end
      | Complete i resp =>
          match nth_error (blocked l) i with
          | None => None
          | Some p =>
              Some {| st := st l; ready := ready l ++ [(p, resp)];
                      blocked := remove_nth i (blocked l); failure := None |}
          end
      end
  end.

Fixpoint exec (schedule : list choice) (l : loop) : option loop :=
  match schedule with
  | [] => Some l
  | c :: rest =>
      match exec_choice c l with
      | Some l' => exec rest l'
      | None => None
      end
  end.

(** Lines 145-158: the tasks [gather] creates, in the order of its
    arguments. *)
Definition gathered : list pc :=
  (map DiskStart (disk_names cfg) ++ [SensorsStart; SinkStart])%list.

Definition cycle_start (s : state) : loop :=
  {| st := s; ready := map (fun p => (p, "")) gathered;
     blocked := []; failure := None |}.

(** [gather] has returned: every task has. *)
Definition cycle_done (l : loop) : bool :=
  match ready l, blocked l, failure l with
  | [], [], None => true
  | _, _, _ => false
  end.

End Agent.

(** [a % b] for a [float] [a] and an [int] [b]. *)
Definition py_mod (a : Q) (b : Z) : result Q :=
  if Z.eqb b 0 then Err ZeroDivisionError
  else Ok (a - inject_Z b * inject_Z (Qfloor (a / inject_Z b)))%Q.

(** Lines 159-160: the argument of [asyncio.sleep], [time_time] being the
    value of [time.time()]. *)
Definition sleep_duration (cfg : config) (time_time : Q) : result Q :=
  r <- py_mod time_time (INTERVAL cfg) ;;
  Ok (inject_Z (INTERVAL cfg) - r)%Q.

(* ------------------------------------------------------------------ *)
(** ** Reading back a JSON array of strings

    The reader below is not part of the program: it says what a JSON text
    that is an array of strings denotes, so that the printed dry-run output
    can be compared with the batch. *)

Inductive reader : Type :=
| RStart
| ROpen
| RStr (done : list string) (cur : string)
| REsc (done : list string) (cur : string)
| RHex (done : list string) (cur : string) (k : nat) (v : nat)
| RAfter (done : list string)
| RComma (done : list string)
| REnd (done : list string)
| RFail.

Definition json_ws (n : nat) : bool :=
  Nat.eqb n 32 || Nat.eqb n 9 || Nat.eqb n 10 || Nat.eqb n 13.

Definition hex_value (n : nat) : option nat :=
  if Nat.leb 48 n && Nat.leb n 57 then Some (n - 48)%nat
  else if Nat.leb 97 n && Nat.leb n 102 then Some (n - 87)%nat
  else if Nat.leb 65 n && Nat.leb n 70 then Some (n - 55)%nat
  else None.

Definition snoc (s : string) (n : nat) : string :=
  s ++ String (ascii_of_nat n) "".

Definition reader_step (r : reader) (c : ascii) : reader :=
  let n := nat_of_ascii c in
  match r with
  | RStart =>
      if json_ws n then RStart else if Nat.eqb n 91 then ROpen else RFail
  | ROpen =>
      if json_ws n then ROpen
      else if Nat.eqb n 34 then RStr [] ""
      else if Nat.eqb n 93 then REnd []
      else RFail
  | RStr done cur =>
      if Nat.eqb n 34 then RAfter (done ++ [cur])
      else if Nat.eqb n 92 then REsc done cur
      else if Nat.ltb n 32 then RFail
      else RStr done (snoc cur n)
  | REsc done cur =>
      if Nat.eqb n 34 then RStr done (snoc cur 34)
      else if Nat.eqb n 92 then RStr done (snoc cur 92)
      else if Nat.eqb n 47 then RStr done (snoc cur 47)
      else if Nat.eqb n 98 then RStr done (snoc cur 8)
      else if Nat.eqb n 102 then RStr done (snoc cur 12)
      else if Nat.eqb n 110 then RStr done (snoc cur 10)
      else if Nat.eqb n 114 then RStr done (snoc cur 13)
      else if Nat.eqb n 116 then RStr done (snoc cur 9)
      else if Nat.eqb n 117 then RHex done cur 0 0
      else RFail
  | RHex done cur k v =>
      match hex_value n with
      | None => RFail
      | Some d =>
          let v' := (16 * v + d)%nat in
          if Nat.eqb k 3
          then (if Nat.ltb v' 256 then RStr done (snoc cur v') else RFail)
          else RHex done cur (S k) v'
      end
  | RAfter done =>
      if json_ws n then RAfter done
      else if Nat.eqb n 44 then RComma done
      else if Nat.eqb n 93 then REnd done
      else RFail
  | RComma done =>
      if json_ws n then RComma done
      else if Nat.eqb n 34 then RStr done ""
      else RFail
  | REnd done => if json_ws n then REnd done else RFail
  | RFail => RFail
  end.

Fixpoint reader_run (r : reader) (text : string) : reader :=
  match text with
  | EmptyString => r
  | String c text' => reader_run (reader_step r c) text'
  end.

Definition read_string_array (text : string) : option (list string) :=
  match reader_run RStart text with
  | REnd done => Some done
  | _ => None
  end.

(* ------------------------------------------------------------------ *)
(** ** Sample inputs *)

Module Sample.

Definition nl : string := String newline "".

Definition clock : clock_reading :=
  {| strftime_utc := "Nov 04 02:23:22";
     isoformat_local := "2026-11-04T02:23:22.004000+00:00" |}.

(** A rendering of numbers that is exact on those with one decimal. *)
Definition float_text (q : Q) : string :=
  let tenths := Qfloor (q * 10) in
  str_of_int (tenths / 10) ++ "." ++ str_of_int (tenths mod 10).

(** A tree as [sensors -j] prints it, already parsed. *)
Definition sensors_tree : pyval :=
  VDict [("coretemp-isa-0000",
          VDict [("Adapter", VStr "ISA adapter");
                 ("Core 0", VDict [("temp2_input", VFloat 42);
                                   ("temp2_max", VFloat 80)]);
                 ("Core 1", VDict [("temp3_input", VFloat 44);
                                   ("temp3_max", VFloat 80)])])].

Definition sensors_output : string := "sensors-output".

(** The decoder of the sample runtime: UTF-8 whose characters are below
    256.  A byte below 128 is a character; the bytes 194 and 195 introduce,
    with one continuation byte, the characters from 128 to 255; every other
    byte sequence is either ill-formed or denotes a character that the
    sample inputs do not hold, and is refused. *)
Fixpoint utf8_decode (b : string) : result string :=
  match b with
  | EmptyString => Ok ""
  | String c b' =>
      let n := nat_of_ascii c in
      if is_ascii c then (t <- utf8_decode b' ;; Ok (String c t))
      else if Nat.eqb n 194 || Nat.eqb n 195 then
        match b' with
        | String c' b'' =>
            let m := nat_of_ascii c' in
            if Nat.leb 128 m && Nat.ltb m 192
            then t <- utf8_decode b'' ;;
                 Ok (String (ascii_of_nat ((n - 192) * 64 + (m - 128))) t)
            else Err UnicodeDecodeError
        | EmptyString => Err UnicodeDecodeError
        end
      else Err UnicodeDecodeError
  end.

Definition rt : runtime :=
  {| nodename := "host";
     basename_file := "syslog.py";
     getpid := 4242;
     now := fun _ => clock;
     float_repr := float_text;
     json_loads := fun text =>
       if String.eqb text sensors_output then Ok sensors_tree
       else Err ValueError;
     decode := utf8_decode |}.

Definition smartctl_output : string :=
  "Device Model:     WDC WD10EZEX" ++ nl ++
  "Serial Number:    WD-WCC6Y0" ++ nl ++
  "ID# ATTRIBUTE_NAME FLAG VALUE WORST THRESH TYPE UPDATED WHEN_FAILED RAW_VALUE"
  ++ nl ++
  "194 Temperature_Celsius 0x0022 110 099 000 Old_age Always - 35" ++ nl.

Definition any : regex := Star Dot.

Definition cfg : config :=
  {| logger_addr := "loghost";
     logger_port := 514;
     INTERVAL := 60;
     disk_names := ["sda"];
     disk_devices := [("__default__", "/dev/sda")];
     disk_kinds := None;
     sensor_names := ["cpu"];
     sensor_devices :=
       [("cpu", [Lit "coretemp"; Lit "Core"; Cat (Lit "temp") (Cat Dot (Lit "_input"))])] |}.

Definition empty : state := {| data := []; ticks := 0; trace := [] |}.

(** A level whose keys share a prefix. *)
Definition chip : pyval :=
  VDict [("temp1_input", VFloat 42); ("temp1_input_max", VFloat 80)].

(** One run of the event loop for a cycle of [cfg]: the three tasks start
in the order [gather] created them, then the disk tool and the sensor
tool finish, in turn, the two steps each task awaits. *)
Definition schedule : list choice :=
  [RunNext; RunNext; RunNext;
   Complete 0 ""; RunNext;
   Complete 0 ""; RunNext;
   Complete 0 smartctl_output; RunNext;
   Complete 0 sensors_output; RunNext].

(** A run in which the connection of [send_data] is ready first, the disk
    tool ends while the sink is writing, and the sensor tool ends after the
    sink has closed. *)
Definition live_schedule : list choice :=
  [RunNext; RunNext; RunNext;
   Complete 2 ""; RunNext;
   Complete 0 ""; RunNext;
   Complete 2 smartctl_output; RunNext;
   Complete 1 ""; RunNext;
   Complete 1 ""; RunNext;
   Complete 1 ""; RunNext;
   Complete 0 ""; RunNext;
   Complete 0 sensors_output; RunNext].

(** A configuration whose second disk has no device. *)
Definition two_disks : config :=
  {| logger_addr := "loghost";
     logger_port := 514;
     INTERVAL := 60;
     disk_names := ["sda"; "sdb"];
     disk_devices := [("sda", "/dev/sda")];
     disk_kinds := None;
     sensor_names := [];
     sensor_devices := [] |}.

End Sample.

(* ------------------------------------------------------------------ *)
(** ** The selection as the specification words it

    These two definitions follow the specification, not the source; the
    properties below compare [select_readings] with them. *)

(** Base case of the specification: the values of the keys that the
    pattern full-matches, in key order. *)
Definition spec_select_single (p : regex) (d : dict) : list pyval :=
  map snd (filter (fun kv => re_fullmatch p (fst kv)) d).

(** Recursive case of the specification: the concatenation, in key order,
    of the selections in the children whose key matches; with no such child
    the concatenation is empty. *)
Definition spec_select_concat (p : regex) (rest : list regex) (d : dict)
  : result (list pyval) :=
  subs <- mapM (fun kv => select_readings (snd kv) rest) (matching p d) ;;
  Ok (List.concat subs).

(* ------------------------------------------------------------------ *)
(** ** Predicates used in the statements *)

(** The value a key of the message contributes, or the default. *)
Definition int_field (message : dict) (key : string) (default v : Z) : Prop :=
  Dict.get message key = Some (VInt v)
  \/ (Dict.get message key = None /\ v = default).




(** The items after the first, each behind the separator of [indent=2]. *)
Fixpoint more_items (ms : list string) : string :=
  match ms with
  | [] => ""
  | m :: ms' => "," ++ String newline "  " ++ json_string m ++ more_items ms'
  end.

(** The rows of the disk tool's output, each decoded and cut into its
    tokens, when every line decodes. *)
Definition table (rt : runtime) (stdout : string)
  : result (list (list string)) :=
  texts <- mapM (decode rt) (splitlines stdout) ;;
  Ok (map split texts).

(** The loop of lines 91-98 over rows already decoded and cut. *)
Fixpoint scan_rows (message : dict) (rows : list (list string)) : result dict :=
  match rows with
  | [] => Ok message
  | row :: rest => message' <- scan_row message row ;; scan_rows message' rest
  end.

(** A row that starts with a recognized attribute identifier. *)
Definition is_attribute_row (row : list string) : bool :=
  head_is row "190" || head_is row "194".

Definition is_label_row (row : list string) : bool :=
  head_is row "Device" || head_is row "Serial".

(** The shape the parser relies on: an attribute row has a tenth token
    and it is an integer; a row that starts with [Device] or [Serial] has
    a second token. *)
Definition row_ok (row : list string) : bool :=
  (if is_attribute_row row
   then match nth_error row 9 with
        | Some tok => match py_int tok with Ok _ => true | Err _ => false end
        | None => false
        end
   else true)
  && (if is_label_row row then Nat.leb 2 (List.length row) else true).

(** What the sink does to the outside: everything but the spawning of
    the collectors' tools. *)
Definition is_sink_event (e : event) : bool :=
  match e with
  | EvShell _ => false
  | _ => true
  end.

Definition sink_events (s : state) : list event :=
  filter is_sink_event (trace s).

(** A collector that has not started yet. *)
Definition is_start (p : pc) : bool :=
  match p with
  | DiskStart _ | SensorsStart => true
  | _ => false
  end.

(** A point of a collector, or the end of a task. *)
Definition is_collector (p : pc) : bool :=
  match p with
  | SinkStart | SinkConnecting | SinkDraining | SinkClosing => false
  | _ => true
  end.

(** [send_data] is still to start, queued behind collectors that are still
    to start, and followed by collectors only. *)
Fixpoint sink_pending (ready : list (pc * string)) : bool :=
  match ready with
  | [] => false
  | (SinkStart, _) :: rest => forallb (fun e => is_collector (fst e)) rest
  | (p, _) :: rest => is_start p && sink_pending rest
  end.

(** The invariant of a cycle in which [send_data] ends in the step it
    takes first.  Until that step the batch is [d] and what the sink has
    done is [before]; from that step on no task of the sink is left and
    what the sink has done is [after]. *)
Definition sink_once (d : list string) (before after : list event) (l : loop)
  : Prop :=
  forallb is_collector (blocked l) = true
  /\ ((sink_pending (ready l) = true
       /\ data (st l) = d /\ sink_events (st l) = before)
      \/ (forallb (fun e => is_collector (fst e)) (ready l) = true
          /\ sink_events (st l) = after)).

(** The schedule of a task that runs alone: [n] times, what it awaits
    completes and the task is resumed. *)
Fixpoint alone (n : nat) : list choice :=
  match n with
  | O => []
  | S n' => Complete 0 "" :: RunNext :: alone n'
  end.

(** The loop in which [p] is the only task. *)
Definition only (p : pc) (s : state) : loop :=
  {| st := s; ready := [(p, "")]; blocked := []; failure := None |}.

(** What [send_data] writes for the batch [lines]. *)
Definition written (lines : list string) : list event :=
  map (fun line => EvWrite (encode (line ++ String newline ""))) lines.

(** The lines handed to the writer so far, in order. *)
Definition is_write (e : event) : bool :=
  match e with
  | EvWrite _ => true
  | _ => false
  end.

Definition writes (s : state) : list event := filter is_write (trace s).

(** A text that fits on one line. *)
Definition no_newline (s : string) : bool :=
  all_chars (fun c => negb (Ascii.eqb c newline)) s.

(** A row whose first two tokens are [first] and [second]. *)
Definition second_is (row : list string) (tok : string) : bool :=
  match row with
  | _ :: t :: _ => String.eqb t tok
  | _ => false
  end.

Definition is_label (first second : string) (row : list string) : bool :=
  head_is row first && second_is row second.

(** [load_disk(n)] is still to start, queued behind collectors that are
    still to start. *)
Fixpoint disk_pending (n : string) (ready : list (pc * string)) : bool :=
  match ready with
  | [] => false
  | (p, _) :: rest =>
      is_start p
      && (match p with
          | DiskStart m => String.eqb m n
          | _ => false
          end
          || disk_pending n rest)
  end.

(** The lines a step of a collector adds at the end of the batch: what the
    batch holds after the step beyond what it held before.  A step of
    [send_data] adds none. *)
Definition appended (rt : runtime) (cfg : config) (dry_run : bool)
           (p : pc) (resp : string) (s : state) : list string :=
  if is_collector p
  then skipn (List.length (data s))
             (data (fst (resume rt cfg dry_run p resp s)))
  else [].

(** The lines the collectors add along a run of the loop, in the order in
    which they add them. *)
Fixpoint collected (rt : runtime) (cfg : config) (dry_run : bool)
         (schedule : list choice) (l : loop) : list string :=
  match schedule with
  | [] => []
  | c :: rest =>
      match exec_choice rt cfg dry_run c l with
      | None => []
      | Some l' =>
          (match c, ready l with
           | RunNext, (p, resp) :: _ => appended rt cfg dry_run p resp (st l)
           | _, _ => []
           end ++ collected rt cfg dry_run rest l')%list
      end
  end.



(** The values, in key order, of the keys of a dict that satisfy [P]. *)
Inductive selects (P : string -> Prop) : dict -> list pyval -> Prop :=
| SelNil : selects P [] []
| SelKeep k v d l :
    P k -> selects P d l -> selects P ((k, v) :: d) (v :: l)
| SelSkip k v d l :
    ~ P k -> selects P d l -> selects P ((k, v) :: d) l.

(** A key that the pattern matches at its start: the pattern matches a
    part of the key that starts the key. *)
Definition matched_at_start (p : regex) (key : string) : Prop :=
  exists pre suf, key = pre ++ suf /\ matches p "" pre suf.

(* ================================================================== *)
(** * Properties *)

(* ------------------------------------------------------------------ *)
(** ** Strings *)

Lemma append_nil_r (s : string) : s ++ "" = s.
Proof. induction s as [|c s IH]; simpl; [reflexivity | now rewrite IH]. Qed.

Lemma append_assoc (a b c : string) : (a ++ b) ++ c = a ++ (b ++ c).
Proof. induction a as [|x a IH]; simpl; [reflexivity | now rewrite IH]. Qed.

Lemma append_eq_nil (a b : string) : a ++ b = "" -> a = "" /\ b = "".
Proof. destruct a; simpl; intros H; [now split | discriminate]. Qed.

(* ------------------------------------------------------------------ *)
(** ** [re.match] and [re.fullmatch] against the language of a pattern *)

Lemma matches_nil_nullable r b s a :
  matches r b s a -> s = "" -> nullable r b a = true.
Proof.
  induction 1; intros E; cbn [nullable]; try reflexivity; try discriminate.
  - assumption.
  - apply append_eq_nil in E as [E1 E2]. subst s1 s2.
    cbn [append] in *. rewrite append_nil_r in IHmatches2.
    now rewrite IHmatches1, IHmatches2.
  - now rewrite IHmatches.
  - rewrite IHmatches by assumption. apply orb_true_r.
Qed.

Lemma nullable_matches_nil r b a : nullable r b a = true -> matches r b "" a.
Proof.
  induction r; cbn [nullable]; intros H; try discriminate.
  - constructor.
  - now constructor.
  - apply andb_true_iff in H as [H1 H2].
    change "" with ("" ++ ""). constructor.
    + cbn [append]. auto.
    + rewrite append_nil_r. auto.
  - apply orb_true_iff in H as [H | H]; [apply MAltL | apply MAltR]; auto.
  - constructor.
Qed.

Lemma deriv_sound c r : forall b s a,
  matches (deriv c r b (s ++ a)) (b ++ String c "") s a ->
  matches r b (String c s) a.
Proof.
  induction r; cbn [deriv]; intros b s x H.
  - inversion H.
  - inversion H.
  - destruct (Ascii.eqb_spec c0 c) as [-> | _]; inversion H; subst. constructor.
  - destruct (Ascii.eqb_spec c newline) as [_ | N]; inversion H; subst.
    now constructor.
  - inversion H.
  - destruct (nullable r1 b (String c (s ++ x))) eqn:N.
    + inversion H as [| | | | | ? ? ? ? ? HL | ? ? ? ? ? HR | |]; subst.
      * inversion HL; subst.
        change (String c (s1 ++ s2)) with (String c s1 ++ s2).
        constructor.
        -- apply IHr1. rewrite <- append_assoc. assumption.
        -- rewrite append_assoc in *. cbn [append] in *. assumption.
      * change (String c s) with ("" ++ String c s).
        constructor.
        -- cbn [append]. now apply nullable_matches_nil.
        -- rewrite append_nil_r. auto.
    + inversion H; subst.
      change (String c (s1 ++ s2)) with (String c s1 ++ s2).
      constructor.
      * apply IHr1. rewrite <- append_assoc. assumption.
      * rewrite append_assoc in *. cbn [append] in *. assumption.
  - inversion H; subst; [apply MAltL | apply MAltR]; auto.
  - inversion H; subst.
    change (String c (s1 ++ s2)) with (String c s1 ++ s2).
    constructor.
    + apply IHr. rewrite <- append_assoc. assumption.
    + rewrite append_assoc in *. cbn [append] in *. assumption.
Qed.

Lemma deriv_complete r b s' a :
  matches r b s' a ->
  forall c s, s' = String c s ->
    matches (deriv c r b (s ++ a)) (b ++ String c "") s a.
Proof.
  induction 1; intros x t E; cbn [deriv]; try discriminate.
  - injection E as -> <-. rewrite Ascii.eqb_refl. constructor.
  - injection E as -> <-.
    destruct (Ascii.eqb_spec x newline); [contradiction | constructor].
  - destruct s1 as [|y s1]; cbn [append] in E.
    + subst s2. rewrite append_nil_r in *. cbn [append] in *.
      rewrite (matches_nil_nullable H eq_refl).
      apply MAltR. now apply IHmatches2.
    + injection E as -> <-.
      assert (D : matches (deriv x r1 b ((s1 ++ s2) ++ a))
                    (b ++ String x "") s1 (s2 ++ a)).
      { rewrite append_assoc. now apply IHmatches1. }
      assert (R : matches r2 ((b ++ String x "") ++ s1) s2 a).
      { rewrite append_assoc. exact H0. }
      destruct (nullable r1 b (String x ((s1 ++ s2) ++ a))).
      * apply MAltL. constructor; assumption.
      * constructor; assumption.
  - apply MAltL. now apply IHmatches.
  - apply MAltR. now apply IHmatches.
  - destruct s1 as [|y s1]; cbn [append] in E.
    + rewrite append_nil_r in *. now apply IHmatches2.
    + injection E as -> <-.
      constructor.
      * rewrite append_assoc. now apply IHmatches1.
      * rewrite append_assoc. exact H0.
Qed.

Lemma fullmatch_from_spec s : forall r b,
  fullmatch_from r b s = true <-> matches r b s "".
Proof.
  induction s as [|c s IH]; intros r b; cbn [fullmatch_from].
  - split; [apply nullable_matches_nil
           | intros H; now apply matches_nil_nullable with ""].
  - rewrite IH. split.
    + intros H. apply deriv_sound. rewrite append_nil_r. exact H.
    + intros H. pose proof (deriv_complete H eq_refl) as D.
      rewrite append_nil_r in D. exact D.
Qed.

Lemma re_fullmatch_spec r s : re_fullmatch r s = true <-> matches r "" s "".
Proof. apply fullmatch_from_spec. Qed.

Lemma match_from_spec s : forall r b,
  match_from r b s = true <->
  exists pre suf, s = pre ++ suf /\ matches r b pre suf.
Proof.
  induction s as [|c s IH]; intros r b; cbn [match_from].
  - rewrite orb_false_r. split.
    + intros H. exists "", "". split; [reflexivity | now apply nullable_matches_nil].
    + intros (pre & suf & E & H). symmetry in E.
      apply append_eq_nil in E as [-> ->].
      now apply matches_nil_nullable with "".
  - rewrite orb_true_iff, IH. split.
    + intros [H | (pre & suf & -> & H)].
      * exists "", (String c s). split; [reflexivity | now apply nullable_matches_nil].
      * exists (String c pre), suf. split; [reflexivity | now apply deriv_sound].
    + intros (pre & suf & E & H). destruct pre as [|y pre]; cbn [append] in E.
      * left. subst suf. now apply matches_nil_nullable with "".
      * injection E as <- ->. right. exists pre, suf.
        split; [reflexivity | now apply (deriv_complete H)].
Qed.

(** [re.match] succeeds exactly when the pattern matches a part of the key
    that starts the key. *)
Lemma re_match_spec r s :
  re_match r s = true <->
  exists pre suf, s = pre ++ suf /\ matches r "" pre suf.
Proof. apply match_from_spec. Qed.

Lemma re_fullmatch_re_match r s : re_fullmatch r s = true -> re_match r s = true.
Proof.
  rewrite re_fullmatch_spec, re_match_spec. intros H.
  exists s, "". now rewrite append_nil_r.
Qed.

(* ------------------------------------------------------------------ *)
(** ** [select_readings] *)

Lemma reduce_from_list_add (acc : list pyval) (l : list (list pyval)) :
  reduce_from list_add acc l = Ok (acc ++ List.concat l)%list.
Proof.
  revert acc. induction l as [|b l IH]; intros acc; simpl.
  - now rewrite app_nil_r.
  - rewrite IH. now rewrite app_assoc.
Qed.

(** [reduce] concatenates a non-empty list of lists. *)
Lemma reduce_list_add_cons (a : list pyval) (l : list (list pyval)) :
  reduce list_add (a :: l) = Ok (List.concat (a :: l)).
Proof. simpl. apply reduce_from_list_add. Qed.

Lemma mapM_nil_inv {A B : Type} (f : A -> result B) (l : list A) :
  mapM f l = Ok [] -> l = [].
Proof.
  destruct l as [|a l]; [reflexivity |].
  simpl. unfold bind.
  destruct (f a); [| discriminate].
  destruct (mapM f l); discriminate.
Qed.

(** With two selectors or more and at least one matching key, the result is
    the concatenation of the selections in the matching children. *)
Lemma select_readings_recursive p q rest d subs :
  matching p d <> [] ->
  mapM (fun kv => select_readings (snd kv) (q :: rest)) (matching p d) = Ok subs ->
  select_readings (VDict d) (p :: q :: rest) = Ok (List.concat subs).
Proof.
  intros NE HM.
  change (select_readings (VDict d) (p :: q :: rest))
    with (subs <- mapM (fun kv => select_readings (snd kv) (q :: rest)) (matching p d) ;;
          reduce list_add subs).
  rewrite HM. unfold bind.
  destruct subs as [|a subs].
  - apply mapM_nil_inv in HM. contradiction.
  - apply reduce_list_add_cons.
Qed.

(** With two selectors or more and no matching key, [reduce] is given an
    empty list and raises. *)
Lemma select_readings_no_match p q rest d :
  matching p d = [] ->
  select_readings (VDict d) (p :: q :: rest) = Err TypeError.
Proof.
  intros E.
  change (select_readings (VDict d) (p :: q :: rest))
    with (subs <- mapM (fun kv => select_readings (snd kv) (q :: rest)) (matching p d) ;;
          reduce list_add subs).
  now rewrite E.
Qed.

(** C2. A first pattern that matches no key of the tree, with a second
    pattern to follow: [select_readings] raises [TypeError] instead of
    returning the empty list; so does a pattern without a match one level
    down.  A last pattern without a match does give the empty list. *)
Theorem select_readings_zero_match_raises :
  select_readings Sample.sensors_tree [Lit "nct6775"; Sample.any]
    = Err TypeError
  /\ select_readings Sample.sensors_tree
       [Lit "coretemp"; Lit "Package"; Sample.any]
    = Err TypeError
  /\ select_readings Sample.sensors_tree [Lit "nct6775"] = Ok [].
Proof. repeat split; vm_compute; reflexivity. Qed.

(** C3, as stated, fails: the pattern [temp1_input] does not full-match the
    key [temp1_input_max], and its value is selected all the same. *)
Lemma select_readings_single_not_fullmatch :
  select_readings Sample.chip [Lit "temp1_input"]
  <> Ok (spec_select_single (Lit "temp1_input")
           [("temp1_input", VFloat 42); ("temp1_input_max", VFloat 80)]).
Proof. vm_compute. discriminate. Qed.

(** The selector [temp1_input$] of the specification: with the end
    anchor the pattern selects the key [temp1_input] and not the key
    [temp1_input_max], which the pattern without the anchor selects too. *)
Lemma select_readings_anchored :
  select_readings Sample.chip [Cat (Lit "temp1_input") Eol] = Ok [VFloat 42]
  /\ select_readings Sample.chip [Lit "temp1_input"]
     = Ok [VFloat 42; VFloat 80].
Proof. split; vm_compute; reflexivity. Qed.

Lemma selects_matching (p : regex) (d : dict) :
  selects (matched_at_start p) d
    (map snd (filter (fun kv => re_match p (fst kv)) d)).
Proof.
  induction d as [| [k v] d IH]; cbn [filter map fst snd]; [constructor |].
  destruct (re_match p k) eqn:E; cbn [map snd].
  - apply SelKeep; [| exact IH]. apply re_match_spec. exact E.
  - apply SelSkip; [| exact IH]. intros H. apply re_match_spec in H.
    rewrite H in E. discriminate E.
Qed.

(** C3, amended. With one selector the result is the list of the values, in
    key order, of exactly the keys that the pattern matches at their start
    ([re.match]: the pattern matches a part of the key that starts the key,
    the rest of the key being what follows the match); every key the
    pattern matches as a whole is among them. *)
Theorem select_readings_single (d : dict) (p : regex) :
  select_readings (VDict d) [p]
    = Ok (map snd (filter (fun kv => re_match p (fst kv)) d))
  /\ selects (matched_at_start p) d
       (map snd (filter (fun kv => re_match p (fst kv)) d))
  /\ (forall key, re_match p key = true <-> matched_at_start p key)
  /\ (forall key, re_fullmatch p key = true <-> matches p "" key "")
  /\ (forall key, matches p "" key "" -> matched_at_start p key).
Proof.
  split; [reflexivity |]. split; [apply selects_matching |].
  split; [intros key; apply re_match_spec |].
  split; [intros key; apply re_fullmatch_spec |].
  intros key H. exists key, "". rewrite append_nil_r. split; [reflexivity | exact H].
Qed.

(** C4. On a tree none of whose keys matches the first of two selectors,
    the concatenation the claim describes is the empty list, and
    [select_readings] raises [TypeError]. *)
Theorem select_readings_concat_zero_match :
  spec_select_concat (Lit "acpitz") [Lit "temp1_input"]
    [("coretemp-isa-0000", Sample.chip)] = Ok []
  /\ select_readings (VDict [("coretemp-isa-0000", Sample.chip)])
       [Lit "acpitz"; Lit "temp1_input"] = Err TypeError.
Proof. split; vm_compute; reflexivity. Qed.

(* ------------------------------------------------------------------ *)
(** ** [format_message]: the priority value *)

Lemma shiftl_lor_add (f p : Z) :
  (0 <= p < 8)%Z -> Z.lor (Z.shiftl f 3) p = (f * 8 + p)%Z.
Proof.
  intros Hp.
  assert (L : Z.land (Z.shiftl f 3) p = 0%Z).
  { apply Z.bits_inj'. intros n Hn.
    rewrite Z.land_spec, Z.bits_0.
    destruct (Z.ltb_spec n 3) as [Hlt | Hge].
    - rewrite Z.shiftl_spec by assumption.
      rewrite Z.testbit_neg_r by lia. reflexivity.
    - replace p with (p mod 2 ^ 3)%Z by (apply Z.mod_small; simpl; lia).
      rewrite Z.mod_pow2_bits_high by lia.
      apply andb_false_r. }
  rewrite <- Z.lxor_lor by assumption.
  rewrite <- Z.add_nocarry_lxor by assumption.
  rewrite Z.shiftl_mul_pow2 by lia. reflexivity.
Qed.

(** C5, as stated, fails: facility 1 with priority 8 gives the value 8,
    not 1 * 8 + 8. *)
Lemma priority_value_not_sum :
  priority_value [("name", VStr "sda"); ("readings", VList [VInt 35]);
                  ("Facility", VInt 1); ("Priority", VInt 8)]
  <> Ok (1 * 8 + 8)%Z.
Proof. vm_compute. discriminate. Qed.

(** C5, amended. With the facility [f] (3 when absent) and a priority [p]
    (6 when absent) between 0 and 7, the priority value is [f * 8 + p], and
    every formatted line starts with it between angle brackets; the defaults
    give [<30>], facility 1 with priority 5 gives [<13>]. *)
Theorem priority_value_spec (message : dict) (f p : Z) :
  int_field message "Facility" 3 f ->
  int_field message "Priority" 6 p ->
  (0 <= p < 8)%Z ->
  priority_value message = Ok (f * 8 + p)%Z
  /\ (forall rt t line,
        format_message rt t message = Ok line ->
        exists rest, line = "<" ++ str_of_int (f * 8 + p) ++ ">" ++ rest)
  /\ str_of_int (3 * 8 + 6) = "30"
  /\ str_of_int (1 * 8 + 5) = "13".
Proof.
  intros HF HP Hp.
  assert (V : priority_value message = Ok (f * 8 + p)%Z).
  { unfold priority_value.
    destruct HF as [-> | [-> ->]], HP as [-> | [-> ->]];
      cbv [bind as_int]; f_equal; apply shiftl_lor_add; lia. }
  split; [exact V | split; [| split; reflexivity]].
  intros rt t line H. unfold format_message in H. rewrite V in H.
  simpl in H. destruct (payload rt t message) as [body |]; simpl in H;
    [| discriminate].
  injection H as <-. unfold header.
  eexists. simpl. rewrite !append_assoc. reflexivity.
Qed.

Lemma priority_value_spec_witness :
  priority_value [("name", VStr "sda"); ("readings", VList [VInt 35]);
                  ("Facility", VInt 1); ("Priority", VInt 5)] = Ok 13%Z
  /\ priority_value [("name", VStr "sda"); ("readings", VList [VInt 35])]
     = Ok 30%Z.
Proof.
  split.
  - apply (@priority_value_spec
             [("name", VStr "sda"); ("readings", VList [VInt 35]);
              ("Facility", VInt 1); ("Priority", VInt 5)] 1 5).
    + left. reflexivity.
    + left. reflexivity.
    + lia.
  - apply (@priority_value_spec
             [("name", VStr "sda"); ("readings", VList [VInt 35])] 3 6).
    + right. split; reflexivity.
    + right. split; reflexivity.
    + lia.
Defined.

(* ------------------------------------------------------------------ *)
(** ** Dictionaries *)

Lemma get_set (d : dict) (k k' : string) (v : pyval) :
  Dict.get (Dict.set d k v) k' = if String.eqb k k' then Some v else Dict.get d k'.
Proof.
  induction d as [|[k0 v0] d IH]; simpl.
  - reflexivity.
  - destruct (String.eqb_spec k0 k) as [-> | N]; simpl.
    + destruct (String.eqb k k'); reflexivity.
    + rewrite IH.
      destruct (String.eqb_spec k0 k') as [-> | N'].
      * destruct (String.eqb_spec k k'); [subst; contradiction | reflexivity].
      * reflexivity.
Qed.

Lemma get_remove (d : dict) (k k' : string) :
  Dict.get (Dict.remove d k) k' = if String.eqb k k' then None else Dict.get d k'.
Proof.
  unfold Dict.remove.
  induction d as [|[k0 v0] d IH]; simpl.
  - destruct (String.eqb k k'); reflexivity.
  - destruct (String.eqb_spec k0 k) as [-> | N]; simpl.
    + rewrite IH. destruct (String.eqb k k'); reflexivity.
    + rewrite IH.
      destruct (String.eqb_spec k0 k') as [-> | N'].
      * destruct (String.eqb_spec k k'); [subst; contradiction | reflexivity].
      * reflexivity.
Qed.

(** What [update] leaves under a key: the last value the items give it, or
    the value it had. *)
Lemma get_update (u d : dict) (k : string) :
  Dict.get (Dict.update d u) k =
  fold_left (fun acc kv => if String.eqb (fst kv) k then Some (snd kv) else acc)
            u (Dict.get d k).
Proof.
  unfold Dict.update. revert d.
  induction u as [|[k0 v0] u IH]; intros d; simpl.
  - reflexivity.
  - rewrite IH, get_set. reflexivity.
Qed.

(* ------------------------------------------------------------------ *)
(** ** [format_message]: the mean and the payload *)


Lemma overflows_false (q : Q) :
  overflows q = false <-> (Qabs q < inject_Z float_bound)%Q.
Proof.
  unfold overflows. split; intros H.
  - apply Qnot_le_lt. intros L. apply Qle_bool_iff in L.
    rewrite L in H. discriminate H.
  - destruct (Qle_bool (inject_Z float_bound) (Qabs q)) eqn:L;
      [| reflexivity].
    apply Qle_bool_iff in L. exfalso. apply (Qlt_not_le _ _ H L).
Qed.

(** A number a [float] can hold, divided by a positive count, still is. *)
Lemma overflows_div (q : Q) (n : Z) :
  (1 <= n)%Z -> overflows q = false -> overflows (q / inject_Z n) = false.
Proof.
  intros Hn H. apply overflows_false in H. apply overflows_false.
  assert (Pn : (0 < inject_Z n)%Q).
  { change 0%Q with (inject_Z 0). rewrite <- Zlt_Qlt. lia. }
  apply Qle_lt_trans with (y := Qabs q); [| exact H].
  unfold Qdiv. rewrite Qabs_Qmult, Qabs_Qinv.
  rewrite (Qabs_pos (inject_Z n)) by (apply Qlt_le_weak; exact Pn).
  apply Qle_shift_div_r; [exact Pn |].
  apply Qle_minus_iff.
  setoid_replace (Qabs q * inject_Z n + - Qabs q)%Q
    with (Qabs q * (inject_Z n - 1))%Q by ring.
  apply Qmult_le_0_compat; [apply Qabs_nonneg |].
  change 1%Q with (inject_Z 1). unfold Qminus.
  rewrite <- inject_Z_opp, <- inject_Z_plus.
  change 0%Q with (inject_Z 0). rewrite <- Zle_Qle. lia.
Qed.

















(* ------------------------------------------------------------------ *)
(** ** The scheduler's sleep *)

(** [a % b] for a positive [b] is the remainder of [a]: it lies in
    [0, b) and differs from [a] by a whole multiple of [b]. *)
Lemma py_mod_spec (a : Q) (b : Z) :
  (0 < b)%Z ->
  exists r, py_mod a b = Ok r
            /\ (0 <= r)%Q /\ (r < inject_Z b)%Q
            /\ (a == inject_Z (Qfloor (a / inject_Z b)) * inject_Z b + r)%Q.
Proof.
  intros Hb. unfold py_mod.
  replace (Z.eqb b 0) with false by (symmetry; apply Z.eqb_neq; lia).
  eexists. split; [reflexivity |].
  assert (Pb : (0 < inject_Z b)%Q).
  { change 0%Q with (inject_Z 0). rewrite <- Zlt_Qlt. assumption. }
  assert (Nb : ~ (inject_Z b == 0)%Q).
  { intros E. rewrite E in Pb. now apply Qlt_irrefl in Pb. }
  set (k := Qfloor (a / inject_Z b)).
  assert (L : (inject_Z k <= a / inject_Z b)%Q) by apply Qfloor_le.
  assert (U : (a / inject_Z b < inject_Z (k + 1))%Q) by apply Qlt_floor.
  assert (Ex : (a / inject_Z b * inject_Z b == a)%Q).
  { rewrite Qmult_comm. now apply Qmult_div_r. }
  assert (L' : (inject_Z k * inject_Z b <= a / inject_Z b * inject_Z b)%Q).
  { apply Qmult_le_compat_r; [assumption | now apply Qlt_le_weak]. }
  assert (U' : (a / inject_Z b * inject_Z b < inject_Z (k + 1) * inject_Z b)%Q).
  { apply Qmult_lt_compat_r; assumption. }
  rewrite Ex in L', U'.
  rewrite inject_Z_plus in U'.
  assert (E : (inject_Z b * inject_Z k == inject_Z k * inject_Z b)%Q) by ring.
  split; [| split].
  - rewrite E. apply (Qplus_le_l _ _ (inject_Z k * inject_Z b)).
    ring_simplify. exact L'.
  - rewrite E. apply (Qplus_lt_l _ _ (inject_Z k * inject_Z b)).
    ring_simplify.
    setoid_replace (inject_Z k * inject_Z b + inject_Z b)%Q
      with ((inject_Z k + inject_Z 1) * inject_Z b)%Q by ring.
    exact U'.
  - ring.
Qed.

(** On a whole number of seconds [a % b] is the integer remainder. *)
Lemma py_mod_integer (z b : Z) :
  (0 < b)%Z ->
  exists r, py_mod (inject_Z z) b = Ok r /\ (r == inject_Z (z mod b))%Q.
Proof.
  intros Hb. unfold py_mod.
  replace (Z.eqb b 0) with false by (symmetry; apply Z.eqb_neq; lia).
  eexists. split; [reflexivity |].
  rewrite <- Zdiv_Qdiv. unfold Qminus.
  rewrite <- inject_Z_mult, <- inject_Z_opp, <- inject_Z_plus.
  apply inject_Z_injective.
  rewrite Z.mod_eq by lia. ring.
Qed.

(** C7. For a positive interval and any reading of the clock, the sleep is
    the interval minus the remainder of the clock by the interval: it is
    positive and at most the interval; on a whole number of seconds the
    remainder is the integer one, so 23 s with an interval of 60 s gives
    37 s. *)
Theorem sleep_duration_aligned (cfg : config) (time_time : Q) :
  (0 < INTERVAL cfg)%Z ->
  exists r d,
    py_mod time_time (INTERVAL cfg) = Ok r
    /\ sleep_duration cfg time_time = Ok d
    /\ (d == inject_Z (INTERVAL cfg) - r)%Q
    /\ (0 <= r)%Q /\ (r < inject_Z (INTERVAL cfg))%Q
    /\ (exists k : Z, (time_time == inject_Z k * inject_Z (INTERVAL cfg) + r)%Q)
    /\ (forall z : Z, time_time = inject_Z z ->
                      (r == inject_Z (z mod INTERVAL cfg))%Q)
    /\ (0 < d)%Q /\ (d <= inject_Z (INTERVAL cfg))%Q.
Proof.
  intros Hb.
  destruct (py_mod_spec time_time Hb) as (r & Hr & R0 & R1 & Rk).
  exists r, (inject_Z (INTERVAL cfg) - r)%Q.
  unfold sleep_duration. rewrite Hr. cbn [bind].
  repeat split; try assumption; try reflexivity.
  - eexists. exact Rk.
  - intros z ->. destruct (py_mod_integer z Hb) as (r' & Hr' & E).
    rewrite Hr in Hr'. injection Hr' as <-. exact E.
  - apply (Qplus_lt_l _ _ r). ring_simplify. exact R1.
  - apply (Qplus_le_l _ _ r). ring_simplify.
    rewrite <- (Qplus_0_r (inject_Z (INTERVAL cfg))) at 1.
    apply Qplus_le_r. exact R0.
Qed.

Lemma sleep_duration_aligned_witness :
  exists r d,
    py_mod 23 60 = Ok r
    /\ sleep_duration Sample.cfg 23 = Ok d
    /\ (d == 60 - r)%Q
    /\ (0 <= r)%Q /\ (r < 60)%Q
    /\ (exists k : Z, (23 == inject_Z k * 60 + r)%Q)
    /\ (forall z : Z, 23%Q = inject_Z z -> (r == inject_Z (z mod 60))%Q)
    /\ (0 < d)%Q /\ (d <= 60)%Q.
Proof.
  apply (@sleep_duration_aligned Sample.cfg 23). reflexivity.
Defined.

(** The example of the specification: 23 seconds into a minute, the
    scheduler sleeps 37 seconds. *)
Lemma sleep_duration_23_of_60 :
  exists d, sleep_duration Sample.cfg 23 = Ok d /\ (d == 37)%Q.
Proof. eexists. split; [reflexivity | reflexivity]. Qed.

(* ------------------------------------------------------------------ *)
(** ** [send_data] *)

(** C10. With an empty batch [send_data] returns at once, in dry-run mode
    and in live mode alike: the state, trace included, is unchanged, so
    nothing is printed and no connection is opened, and the task is over
    without having awaited anything. *)
Theorem send_data_empty rt cfg (dry_run : bool) (s : state) :
  data s = [] ->
  send_data rt cfg dry_run s = (s, Returned)
  /\ (forall resp, resume rt cfg dry_run SinkStart resp s = (s, Returned)).
Proof.
  intros E. unfold resume, send_data. rewrite E. split; reflexivity.
Qed.

Lemma send_data_empty_witness :
  send_data Sample.rt Sample.cfg false Sample.empty = (Sample.empty, Returned)
  /\ (forall resp,
        resume Sample.rt Sample.cfg false SinkStart resp Sample.empty
        = (Sample.empty, Returned)).
Proof. apply (@send_data_empty Sample.rt Sample.cfg false Sample.empty). reflexivity. Defined.

Lemma reader_run_app (a b : string) :
  forall r, reader_run r (a ++ b) = reader_run (reader_run r a) b.
Proof. induction a as [|c a IH]; intros r; simpl; [reflexivity | apply IH]. Qed.

Lemma reader_escape_char (done : list string) (cur : string) (c : ascii) :
  reader_run (RStr done cur) (json_escape_char c) = RStr done (cur ++ String c "").
Proof.
  destruct c as [[|] [|] [|] [|] [|] [|] [|] [|]]; reflexivity.
Qed.

Lemma reader_escape (done : list string) (s : string) :
  forall cur, reader_run (RStr done cur) (json_escape s) = RStr done (cur ++ s).
Proof.
  induction s as [|c s IH]; intros cur; simpl.
  - now rewrite append_nil_r.
  - rewrite reader_run_app, reader_escape_char, IH, append_assoc. reflexivity.
Qed.

(** A string literal is read back as the string, from the state that has
    just met its opening quote. *)
Lemma reader_string_body (done : list string) (s : string) (rest : string) :
  reader_run (RStr done "") (json_escape s ++ dquote ++ rest)
  = reader_run (RAfter (done ++ [s])) rest.
Proof.
  rewrite reader_run_app, reader_escape. reflexivity.
Qed.

Lemma concat_more_items (m : string) (ms : list string) :
  String.concat ("," ++ String newline "  ") (map json_string (m :: ms))
  = json_string m ++ more_items ms.
Proof.
  revert m. induction ms as [|m' ms IH]; intros m.
  - simpl. now rewrite append_nil_r.
  - change (map json_string (m :: m' :: ms))
      with (json_string m :: map json_string (m' :: ms)).
    cbn [String.concat map]. cbn [String.concat map] in IH.
    rewrite IH. cbn [more_items]. rewrite !append_assoc. reflexivity.
Qed.

Lemma reader_more_items (ms : list string) (tail : string) :
  forall done,
    reader_run (RAfter done) (more_items ms ++ tail)
    = reader_run (RAfter (done ++ ms)) tail.
Proof.
  induction ms as [|m ms IH]; intros done.
  - simpl. now rewrite app_nil_r.
  - cbn [more_items]. unfold json_string.
    rewrite !append_assoc.
    rewrite (reader_run_app ","), (reader_run_app (String newline "  ")),
            (reader_run_app dquote).
    change (reader_run (reader_run (reader_run (RAfter done) ",")
                          (String newline "  ")) dquote)
      with (RStr done "").
    rewrite reader_string_body, IH, <- app_assoc. reflexivity.
Qed.

(** What [json.dumps(batch, indent=2)] prints for a non-empty batch. *)
Lemma json_dumps_batch rt (m : string) (ms : list string) :
  json_dumps_at rt (Some 2%nat) 0 (VList (map VStr (m :: ms)))
  = "[" ++ String newline "  "
        ++ String.concat ("," ++ String newline "  ") (map json_string (m :: ms))
        ++ String newline "" ++ "]".
Proof.
  cbn [map json_dumps_at].
  replace (map (json_dumps_at rt (Some 2%nat) 1) (map VStr ms))
    with (map json_string ms)
    by (rewrite map_map; apply map_ext; reflexivity).
  reflexivity.
Qed.

(** The printed text is a JSON array whose elements are the strings of the
    batch, in order. *)
Lemma read_json_dumps_batch rt (m : string) (ms : list string) :
  read_string_array (json_dumps_at rt (Some 2%nat) 0 (VList (map VStr (m :: ms))))
  = Some (m :: ms).
Proof.
  rewrite json_dumps_batch, concat_more_items.
  unfold read_string_array, json_string.
  rewrite !append_assoc.
  rewrite (reader_run_app "["), (reader_run_app (String newline "  ")),
          (reader_run_app dquote).
  change (reader_run (reader_run (reader_run RStart "[")
                        (String newline "  ")) dquote)
    with (RStr [] "").
  rewrite reader_string_body, reader_more_items. reflexivity.
Qed.

(** C9. In dry-run mode, with a batch that is not empty, [send_data]
    prints one text and returns with the batch empty.  The text is the JSON
    array of the batch's strings, one per line behind two spaces, and reads
    back as exactly those strings in their order of insertion. *)
Theorem send_data_dry_run rt cfg (s : state) :
  data s <> [] ->
  exists text,
    send_data rt cfg true s
    = ({| data := []; ticks := ticks s; trace := trace s ++ [EvPrint text] |},
       Returned)
    /\ text = "[" ++ String newline "  "
                  ++ String.concat ("," ++ String newline "  ")
                       (map json_string (data s))
                  ++ String newline "" ++ "]"
    /\ read_string_array text = Some (data s).
Proof.
  intros NE. unfold send_data.
  destruct (data s) as [|m ms] eqn:E; [contradiction |].
  eexists. split; [reflexivity | split].
  - apply json_dumps_batch.
  - apply read_json_dumps_batch.
Qed.

Lemma send_data_dry_run_witness :
  exists text,
    send_data Sample.rt Sample.cfg true
      {| data := ["<30>first"; "<30>second"]; ticks := 2; trace := [] |}
    = ({| data := []; ticks := 2; trace := [EvPrint text] |}, Returned)
    /\ text = "[" ++ String newline "  "
                  ++ String.concat ("," ++ String newline "  ")
                       (map json_string ["<30>first"; "<30>second"])
                  ++ String newline "" ++ "]"
    /\ read_string_array text = Some ["<30>first"; "<30>second"].
Proof.
  apply (@send_data_dry_run Sample.rt Sample.cfg
           {| data := ["<30>first"; "<30>second"]; ticks := 2; trace := [] |}).
  discriminate.
Defined.

(* ------------------------------------------------------------------ *)
(** ** [load_disk] *)

Lemma index_second {A : Type} (a : A) (l : list A) :
  Nat.leb 2 (List.length (a :: l)) = true -> exists b, index (a :: l) 1 = Ok b.
Proof.
  destruct l as [|b l]; simpl; intros H; [discriminate |].
  exists b. reflexivity.
Qed.

(** One well-shaped row: the loop body does not raise, never touches the
    name, and sets [readings] to a one-element list exactly on an attribute
    row. *)
Lemma scan_row_ok (message : dict) (line : list string) :
  row_ok line = true ->
  exists message',
    scan_row message line = Ok message'
    /\ (forall k, k <> "readings" -> k <> "model" -> k <> "serial" ->
                   Dict.get message' k = Dict.get message k)
    /\ (if is_attribute_row line
        then exists v, Dict.get message' "readings" = Some (VList [VInt v])
        else Dict.get message' "readings" = Dict.get message "readings").
Proof.
  intros HW. unfold scan_row.
  unfold row_ok, is_attribute_row, is_label_row in *.
  assert (K : forall k (d : dict) key v,
             k <> key -> Dict.get (Dict.set d key v) k = Dict.get d k).
  { intros k d key v N. rewrite get_set.
    destruct (String.eqb_spec key k); [subst; contradiction | reflexivity]. }
  destruct line as [|t row].
  - cbn. exists message. repeat split; reflexivity.
  - cbn [nonempty andb head_is] in *.
    apply andb_true_iff in HW as [HW1 HW2].
    assert (HI : (String.eqb t "Device" || String.eqb t "Serial") = true ->
                 exists b, index (t :: row) 1 = Ok b).
    { intros L. rewrite L in HW2. now apply index_second. }
    assert (HM : exists is_model,
               and_then (String.eqb t "Device")
                 (t0 <- index (t :: row) 1 ;; Ok (String.eqb t0 "Model:"))
               = Ok is_model).
    { destruct (String.eqb t "Device"); [| eexists; reflexivity].
      destruct (HI eq_refl) as [b ->]. eexists. reflexivity. }
    assert (HS : exists is_serial,
               and_then (String.eqb t "Serial")
                 (t0 <- index (t :: row) 1 ;; Ok (String.eqb t0 "Number:"))
               = Ok is_serial).
    { destruct (String.eqb t "Serial"); [| eexists; reflexivity].
      destruct HI as [b ->]; [apply orb_true_r | eexists; reflexivity]. }
    destruct HM as [is_model ->], HS as [is_serial ->].
    destruct (String.eqb t "190" || String.eqb t "194").
    + unfold index.
      destruct (nth_error (t :: row) 9) as [tok|]; [| discriminate].
      cbn [bind].
      destruct (py_int tok) as [v|]; [| discriminate].
      cbn [bind]. eexists. split; [reflexivity | split].
      * intros k N1 N2 N3.
        destruct is_model, is_serial; rewrite ?K by assumption; reflexivity.
      * destruct is_model, is_serial; rewrite ?get_set; cbn; eauto.
    + cbn [bind]. eexists. split; [reflexivity | split].
      * intros k N1 N2 N3.
        destruct is_model, is_serial; rewrite ?K by assumption; reflexivity.
      * destruct is_model, is_serial; rewrite ?get_set; cbn; eauto.
Qed.

Lemma scan_rows_ok (rows : list (list string)) :
  forall message,
    forallb row_ok rows = true ->
    exists final,
      scan_rows message rows = Ok final
      /\ (forall k, k <> "readings" -> k <> "model" -> k <> "serial" ->
                    Dict.get final k = Dict.get message k)
      /\ (if existsb is_attribute_row rows
          then exists v, Dict.get final "readings" = Some (VList [VInt v])
          else Dict.get final "readings" = Dict.get message "readings").
Proof.
  induction rows as [|row rows IH]; intros message HW.
  - exists message. repeat split; reflexivity.
  - cbn [forallb existsb scan_rows] in *.
    apply andb_true_iff in HW as [HW1 HW2].
    destruct (scan_row_ok message row HW1) as (m1 & -> & K1 & R1).
    cbn [bind].
    destruct (IH m1 HW2) as (final & -> & K2 & R2).
    exists final. split; [reflexivity | split].
    + intros k N1 N2 N3. rewrite K2, K1 by assumption. reflexivity.
    + destruct (existsb is_attribute_row rows).
      * rewrite orb_true_r. exact R2.
      * rewrite orb_false_r. destruct (is_attribute_row row).
        -- destruct R1 as [v R1]. exists v. now rewrite R2.
        -- now rewrite R2.
Qed.

(** When every line decodes, the loop over the lines is the loop over
    their rows. *)
Lemma scan_lines_rows rt (lines : list string) :
  forall (message : dict) (texts : list string),
    mapM (decode rt) lines = Ok texts ->
    scan_lines rt message lines = scan_rows message (map split texts).
Proof.
  induction lines as [| raw lines IH]; intros message texts H;
    cbn [mapM] in H.
  - injection H as <-. reflexivity.
  - destruct (decode rt raw) as [text |] eqn:E; [| discriminate H].
    cbn [bind] in H.
    destruct (mapM (decode rt) lines) as [texts' |] eqn:E'; [| discriminate H].
    cbn [bind] in H. injection H as <-.
    cbn [scan_lines map scan_rows]. unfold scan_line. rewrite E. cbn [bind].
    destruct (scan_row message (split text)) as [m1 |]; cbn [bind];
      [apply (IH m1 texts' eq_refl) | reflexivity].
Qed.

Lemma disk_message_rows rt (disk_name stdout : string)
      (rows : list (list string)) :
  table rt stdout = Ok rows ->
  disk_message rt disk_name stdout
  = scan_rows [("name", VStr disk_name)] rows.
Proof.
  unfold table, disk_message.
  destruct (mapM (decode rt) (splitlines stdout)) as [texts |] eqn:E;
    [| discriminate].
  cbn [bind]. intros H. injection H as <-.
  apply scan_lines_rows. exact E.
Qed.

Lemma get_update_some (u d : dict) (k : string) (x : pyval) :
  Dict.get d k = Some x -> exists y, Dict.get (Dict.update d u) k = Some y.
Proof.
  intros H. rewrite get_update, H. clear H. revert x.
  induction u as [|[k0 v0] u IH]; intros x; simpl.
  - eauto.
  - destruct (String.eqb k0 k); apply IH.
Qed.

Lemma overflows_int (v : Z) :
  (Z.abs v < float_bound)%Z -> overflows (inject_Z v) = false.
Proof.
  intros H. apply overflows_false.
  change (Qabs (inject_Z v)) with (inject_Z (Z.abs v)).
  rewrite <- Zlt_Qlt. exact H.
Qed.

(** A message as [load_disk] builds it is formatted when a [float] can hold
    its reading. *)
Lemma format_message_disk rt t (message : dict) (n : string) (v : Z) :
  Dict.get message "name" = Some (VStr n) ->
  Dict.get message "readings" = Some (VList [VInt v]) ->
  Dict.get message "Facility" = None ->
  Dict.get message "Priority" = None ->
  (Z.abs v < float_bound)%Z ->
  exists line, format_message rt t message = Ok line.
Proof.
  intros Hn Hr HF HP HV.
  unfold format_message, priority_value. rewrite HF, HP. cbn [bind].
  unfold payload, getitem. rewrite Hn, Hr.
  cbn [bind mean_of reduce reduce_from List.length].
  change (Z.of_nat 1) with 1%Z. unfold py_truediv.
  change (Z.eqb 1 0) with false.
  rewrite (@overflows_div (inject_Z v) 1) by (lia || apply overflows_int; exact HV).
  cbn [bind as_key].
  unfold Dict.mem.
  destruct (@get_update_some
              (Dict.literal [("hostname", VStr (nodename rt));
                             ("timereported", VStr (isoformat_local t));
                             (n, VFloat (inject_Z v / inject_Z 1))])
              message "readings" _ Hr) as [y ->].
  eexists. reflexivity.
Qed.

(** C8, as stated, fails: an output whose only line is the single token
    [Device] has no attribute row, and [load_disk] raises [IndexError] on
    [line[1]]; an attribute row with fewer than ten tokens raises it on
    [line[9]]; one whose tenth token is not an integer raises
    [ValueError]; a line that does not decode raises
    [UnicodeDecodeError]; and a reading that no [float] can hold makes the
    formatting raise [OverflowError]. *)
Lemma load_disk_short_row_raises :
  table Sample.rt "Device" = Ok [["Device"]]
  /\ existsb is_attribute_row [["Device"]] = false
  /\ load_disk Sample.rt "sda" "Device" Sample.empty
     = (Sample.empty, Err IndexError)
  /\ load_disk Sample.rt "sda" "194 Temperature_Celsius 35" Sample.empty
     = (Sample.empty, Err IndexError)
  /\ load_disk Sample.rt "sda"
       "194 Temperature_Celsius 0x0022 110 099 000 Old_age Always - n/a"
       Sample.empty
     = (Sample.empty, Err ValueError)
  /\ load_disk Sample.rt "sda" (String (ascii_of_nat 255) "") Sample.empty
     = (Sample.empty, Err UnicodeDecodeError)
  /\ load_disk Sample.rt "sda"
       ("194 Temperature_Celsius 0x0022 110 099 000 Old_age Always - 1"
        ++ String.concat "" (repeat "0" 400))
       Sample.empty
     = ({| data := []; ticks := 1; trace := [] |}, Err OverflowError).
Proof. repeat split; vm_compute; reflexivity. Qed.

(** C8, amended. On an output every line of which decodes and whose rows
    have the shape the parser relies on (an attribute row has an integer
    as tenth token, a row that starts with [Device] or [Serial] has a
    second token): without an attribute row [load_disk] leaves the batch
    as it is and does not raise; with one, exactly one message is built
    for the disk, with a [readings] list of one integer, and when a
    [float] can hold that integer the message is formatted and exactly one
    line is appended to the batch. *)
Theorem load_disk_spec rt (disk_name stdout : string) (s : state)
        (rows : list (list string)) :
  table rt stdout = Ok rows ->
  forallb row_ok rows = true ->
  (existsb is_attribute_row rows = false ->
   load_disk rt disk_name stdout s = (s, Ok tt))
  /\ (existsb is_attribute_row rows = true ->
      exists v message,
        disk_message rt disk_name stdout = Ok message
        /\ Dict.get message "name" = Some (VStr disk_name)
        /\ Dict.get message "readings" = Some (VList [VInt v])
        /\ ((Z.abs v < float_bound)%Z ->
            exists line,
              format_message rt (now rt (ticks s)) message = Ok line
              /\ load_disk rt disk_name stdout s
                 = ({| data := data s ++ [line]; ticks := S (ticks s);
                       trace := trace s |}, Ok tt))).
Proof.
  intros HT HW.
  destruct (scan_rows_ok rows [("name", VStr disk_name)] HW)
    as (final & HS & K & R).
  unfold load_disk.
  rewrite (@disk_message_rows rt disk_name stdout rows HT), HS.
  split; intros E; rewrite E in R.
  - unfold Dict.mem. rewrite R. reflexivity.
  - destruct R as [v R].
    assert (Hn : Dict.get final "name" = Some (VStr disk_name))
      by (rewrite K by discriminate; reflexivity).
    assert (HF : Dict.get final "Facility" = None)
      by (rewrite K by discriminate; reflexivity).
    assert (HP : Dict.get final "Priority" = None)
      by (rewrite K by discriminate; reflexivity).
    exists v, final. split; [reflexivity |].
    split; [exact Hn |]. split; [exact R |]. intros HV.
    destruct (format_message_disk rt (now rt (ticks s)) final Hn R HF HP HV)
      as [line HL].
    exists line. split; [exact HL |].
    unfold Dict.mem, append_formatted. rewrite R, HL. reflexivity.
Qed.

Lemma load_disk_spec_witness :
  (exists v message,
      disk_message Sample.rt "sda" Sample.smartctl_output = Ok message
      /\ Dict.get message "name" = Some (VStr "sda")
      /\ Dict.get message "readings" = Some (VList [VInt v])
      /\ ((Z.abs v < float_bound)%Z ->
          exists line,
            format_message Sample.rt (now Sample.rt 0) message = Ok line
            /\ load_disk Sample.rt "sda" Sample.smartctl_output Sample.empty
               = ({| data := [line]; ticks := 1; trace := [] |}, Ok tt)))
  /\ load_disk Sample.rt "sda" "Device Model: WDC" Sample.empty
     = (Sample.empty, Ok tt).
Proof.
  split.
  - apply (@load_disk_spec Sample.rt "sda" Sample.smartctl_output Sample.empty
             (map split (splitlines Sample.smartctl_output)));
      vm_compute; reflexivity.
  - apply (@load_disk_spec Sample.rt "sda" "Device Model: WDC" Sample.empty
             [["Device"; "Model:"; "WDC"]]);
      vm_compute; reflexivity.
Defined.

(* ------------------------------------------------------------------ *)
(** ** The cycle: [send_data] among the collectors *)

Lemma sink_events_emit_shell (cmd : string) (s : state) :
  sink_events (emit (EvShell cmd) s) = sink_events s.
Proof.
  unfold sink_events, emit. cbn [trace]. rewrite filter_app. cbn.
  apply app_nil_r.
Qed.

Lemma append_formatted_trace (rt : runtime) (message : dict) (s : state) :
  trace (fst (append_formatted rt message s)) = trace s.
Proof.
  unfold append_formatted.
  destruct (format_message rt (now rt (ticks s)) message); cbn [fst].
  - reflexivity.
  - destruct (priority_value message); reflexivity.
Qed.

Lemma load_disk_trace (rt : runtime) (n stdout : string) (s : state) :
  trace (fst (load_disk rt n stdout s)) = trace s.
Proof.
  unfold load_disk. destruct (disk_message rt n stdout) as [message | e].
  - destruct (Dict.mem message "readings").
    + apply append_formatted_trace.
    + reflexivity.
  - reflexivity.
Qed.

Lemma sensors_loop_trace (rt : runtime) (cfg : config) (sensor_data : pyval)
      (names : list string) (s : state) :
  trace (fst (sensors_loop rt cfg sensor_data names s)) = trace s.
Proof.
  revert s. induction names as [| n rest IH]; intros s; cbn [sensors_loop].
  - reflexivity.
  - match goal with |- context [match ?c with Ok _ => _ | Err _ => _ end] =>
      destruct c as [message | e] end.
    + pose proof (append_formatted_trace rt message s) as T.
      destruct (append_formatted rt message s) as [s' [u | e]]; cbn [fst] in T.
      * rewrite IH. exact T.
      * exact T.
    + reflexivity.
Qed.

Lemma load_sensors_trace (rt : runtime) (cfg : config) (stdout : string)
      (s : state) :
  trace (fst (load_sensors rt cfg stdout s)) = trace s.
Proof.
  unfold load_sensors.
  match goal with |- context [match ?c with Ok _ => _ | Err _ => _ end] =>
    destruct c as [sensor_data | e] end.
  - apply sensors_loop_trace.
  - reflexivity.
Qed.

Lemma finish_collector (r : state * result unit) :
  is_collector (snd (finish r)) = true /\ fst (finish r) = fst r.
Proof.
  unfold finish. destruct (snd r); split; reflexivity.
Qed.

(** A collector never becomes a task of the sink, and sends nothing. *)
Lemma resume_collector (rt : runtime) (cfg : config) (dry_run : bool)
      (p : pc) (resp : string) (s : state) :
  is_collector p = true ->
  is_collector (snd (resume rt cfg dry_run p resp s)) = true
  /\ sink_events (fst (resume rt cfg dry_run p resp s)) = sink_events s.
Proof.
  intros Hp. destruct p; try discriminate Hp; cbn [resume].
  - destruct (load_disk_command cfg disk_name); cbn [fst snd]; split;
      try reflexivity. apply sink_events_emit_shell.
  - split; reflexivity.
  - destruct (finish_collector (load_disk rt disk_name resp s)) as [C F].
    split; [exact C |]. rewrite F. unfold sink_events.
    rewrite load_disk_trace. reflexivity.
  - cbn [fst snd]. split; [reflexivity | apply sink_events_emit_shell].
  - split; reflexivity.
  - destruct (finish_collector (load_sensors rt cfg resp s)) as [C F].
    split; [exact C |]. rewrite F. unfold sink_events.
    rewrite load_sensors_trace. reflexivity.
  - split; reflexivity.
  - split; reflexivity.
Qed.

(** A collector that starts leaves the batch as it is. *)
Lemma resume_start (rt : runtime) (cfg : config) (dry_run : bool)
      (p : pc) (resp : string) (s : state) :
  is_start p = true ->
  data (fst (resume rt cfg dry_run p resp s)) = data s.
Proof.
  intros Hp. destruct p; try discriminate Hp; cbn [resume].
  - destruct (load_disk_command cfg disk_name); reflexivity.
  - reflexivity.
Qed.

Lemma is_start_collector (p : pc) : is_start p = true -> is_collector p = true.
Proof. destruct p; intros H; try discriminate H; reflexivity. Qed.

Lemma sink_pending_app (r : list (pc * string)) (e : pc * string) :
  sink_pending r = true -> is_collector (fst e) = true ->
  sink_pending (r ++ [e]) = true.
Proof.
  intros H He. induction r as [| [p resp] r IH]; [discriminate H |].
  destruct p; cbn [sink_pending app is_start andb] in *;
    try discriminate H; try (apply IH; exact H).
  rewrite forallb_app, H. cbn. rewrite He. reflexivity.
Qed.

Lemma forallb_nth_error {A : Type} (f : A -> bool) (l : list A) (i : nat)
      (a : A) :
  forallb f l = true -> nth_error l i = Some a -> f a = true.
Proof.
  revert i. induction l as [| b l IH]; intros [| i] H E; cbn in *;
    try discriminate E; apply andb_prop in H; destruct H as [Hb Hl].
  - injection E as <-. exact Hb.
  - apply (IH i Hl E).
Qed.

Lemma forallb_remove_nth {A : Type} (f : A -> bool) (l : list A) (i : nat) :
  forallb f l = true -> forallb f (remove_nth i l) = true.
Proof.
  revert i. induction l as [| b l IH]; intros [| i] H; cbn in *;
    try reflexivity; apply andb_prop in H; destruct H as [Hb Hl].
  - exact Hl.
  - rewrite Hb, (IH i Hl). reflexivity.
Qed.

Lemma run_next_shape rt cfg dry (l l' : loop) :
  exec_choice rt cfg dry RunNext l = Some l' ->
  exists p resp rest,
    ready l = (p, resp) :: rest
    /\ st l' = fst (resume rt cfg dry p resp (st l))
    /\ ready l' = rest
    /\ (blocked l' = blocked l
        \/ blocked l' = (blocked l ++ [snd (resume rt cfg dry p resp (st l))])%list).
Proof.
  unfold exec_choice. destruct (failure l); [discriminate |].
  destruct (ready l) as [| [p resp] rest]; [discriminate |].
  destruct (resume rt cfg dry p resp (st l)) as [s' p'] eqn:R.
  intros E. exists p, resp, rest. rewrite R. cbn [fst snd].
  destruct p'; injection E as <-; cbn; repeat split; auto.
Qed.

Lemma complete_shape rt cfg dry i resp (l l' : loop) :
  exec_choice rt cfg dry (Complete i resp) l = Some l' ->
  exists p,
    nth_error (blocked l) i = Some p
    /\ st l' = st l
    /\ ready l' = (ready l ++ [(p, resp)])%list
    /\ blocked l' = remove_nth i (blocked l).
Proof.
  unfold exec_choice. destruct (failure l); [discriminate |].
  destruct (nth_error (blocked l) i) as [p |]; [| discriminate].
  intros E. injection E as <-. exists p. cbn. repeat split; auto.
Qed.

Lemma sink_pending_head (p : pc) (resp : string) (rest : list (pc * string)) :
  sink_pending ((p, resp) :: rest) = true ->
  (p = SinkStart /\ forallb (fun e => is_collector (fst e)) rest = true)
  \/ (is_start p = true /\ sink_pending rest = true).
Proof.
  destruct p; cbn [sink_pending is_start andb]; intros H;
    try discriminate H; auto.
Qed.

Lemma sink_once_step rt cfg dry d before after c (l l' : loop) :
  (forall s, data s = d -> sink_events s = before ->
             snd (send_data rt cfg dry s) = Returned
             /\ sink_events (fst (send_data rt cfg dry s)) = after) ->
  sink_once d before after l ->
  exec_choice rt cfg dry c l = Some l' ->
  sink_once d before after l'.
Proof.
  intros HS [HB HR] E. destruct c as [| i resp].
  - destruct (run_next_shape _ _ _ _ E) as (p & resp & rest & Rl & Sl & Rl' & Bl).
    rewrite Rl in HR.
    destruct HR as [(HP & HD & HE) | (HC & HE)].
    + apply sink_pending_head in HP.
      destruct HP as [[-> HC] | [HP1 HP2]].
      * cbn [resume] in Sl, Bl.
        destruct (HS (st l) HD HE) as [R1 R2].
        split.
        -- destruct Bl as [-> | ->]; [exact HB |].
           rewrite forallb_app, HB, R1. reflexivity.
        -- right. rewrite Rl', Sl. split; assumption.
      * destruct (@resume_collector rt cfg dry p resp (st l)
                    (is_start_collector _ HP1)) as [C1 C2].
        split.
        -- destruct Bl as [-> | ->]; [exact HB |].
           rewrite forallb_app, HB. cbn. rewrite C1. reflexivity.
        -- left. rewrite Rl', Sl. repeat split.
           ++ exact HP2.
           ++ rewrite (@resume_start rt cfg dry p resp (st l) HP1). exact HD.
           ++ rewrite C2. exact HE.
    + cbn [forallb fst] in HC. apply andb_prop in HC. destruct HC as [Hp Hrest].
      destruct (@resume_collector rt cfg dry p resp (st l) Hp) as [C1 C2].
      split.
      * destruct Bl as [-> | ->]; [exact HB |].
        rewrite forallb_app, HB. cbn. rewrite C1. reflexivity.
      * right. rewrite Rl', Sl. split; [exact Hrest |].
        rewrite C2. exact HE.
  - destruct (complete_shape _ _ _ _ _ _ E) as (p & Np & Sl & Rl' & Bl).
    pose proof (forallb_nth_error _ _ _ HB Np) as Hp.
    split.
    + rewrite Bl. apply forallb_remove_nth. exact HB.
    + rewrite Rl', Sl.
      destruct HR as [(HP & HD & HE) | (HC & HE)].
      * left. repeat split; try assumption.
        apply sink_pending_app; assumption.
      * right. split; [| exact HE].
        rewrite forallb_app, HC. cbn. rewrite Hp. reflexivity.
Qed.

Lemma sink_once_exec rt cfg dry d before after sched : forall (l l' : loop),
  (forall s, data s = d -> sink_events s = before ->
             snd (send_data rt cfg dry s) = Returned
             /\ sink_events (fst (send_data rt cfg dry s)) = after) ->
  sink_once d before after l ->
  exec rt cfg dry sched l = Some l' ->
  sink_once d before after l'.
Proof.
  induction sched as [| c sched IH]; intros l l' HS HI E; cbn [exec] in E.
  - injection E as <-. exact HI.
  - destruct (exec_choice rt cfg dry c l) as [l1 |] eqn:E1; [| discriminate].
    apply (IH l1 l' HS); [| exact E].
    eapply sink_once_step; eassumption.
Qed.

Lemma sink_pending_gathered (names : list string) :
  sink_pending
    (map (fun p => (p, "")) (map DiskStart names ++ [SensorsStart; SinkStart])%list)
  = true.
Proof. induction names as [| n names IH]; cbn; [reflexivity | exact IH]. Qed.

Lemma sink_once_cycle_start cfg (s : state) after :
  sink_once (data s) (sink_events s) after (cycle_start cfg s).
Proof.
  split; [reflexivity |]. left. repeat split.
  apply sink_pending_gathered.
Qed.

Lemma sink_events_emit (e : event) (s : state) :
  sink_events (emit e s) = (sink_events s ++ filter is_sink_event [e])%list.
Proof. unfold sink_events, emit. cbn [trace]. apply filter_app. Qed.

Lemma sink_pending_not_done (l : loop) :
  cycle_done l = true -> sink_pending (ready l) = false.
Proof.
  unfold cycle_done. destruct (ready l); [reflexivity | discriminate].
Qed.

(** X1. [main] gathers [send_data] together with the collectors, so in a
    cycle that starts with an empty batch, whatever the order in which the
    loop runs the tasks and the tools answer, and in both modes, nothing is
    printed, no connection is opened and nothing is written: [send_data]
    takes its only step while the batch is still empty. *)
Theorem cycle_empty_batch_sends_nothing rt cfg (dry_run : bool)
        (schedule : list choice) (s : state) (l : loop) :
  data s = [] ->
  exec rt cfg dry_run schedule (cycle_start cfg s) = Some l ->
  sink_events (st l) = sink_events s.
Proof.
  intros HD E.
  assert (I : sink_once (data s) (sink_events s) (sink_events s) l).
  { eapply sink_once_exec; [| apply sink_once_cycle_start | exact E].
    intros s0 H0 H1. unfold send_data. rewrite H0, HD.
    cbn [fst snd]. split; [reflexivity | exact H1]. }
  destruct I as [_ [(_ & _ & H) | (_ & H)]]; exact H.
Qed.

Lemma cycle_empty_batch_sends_nothing_witness :
  exists l,
    exec Sample.rt Sample.cfg false Sample.schedule
      (cycle_start Sample.cfg Sample.empty) = Some l
    /\ cycle_done l = true
    /\ List.length (data (st l)) = 2%nat
    /\ sink_events (st l) = [].
Proof.
  eexists. split; [vm_compute; reflexivity |].
  split; [reflexivity |]. split; [reflexivity |].
  apply (@cycle_empty_batch_sends_nothing Sample.rt Sample.cfg false
           Sample.schedule Sample.empty).
  - reflexivity.
  - vm_compute. reflexivity.
Defined.

(** X2. In dry-run mode, in a cycle that starts with a non-empty batch,
    whatever the order in which the loop runs the tasks: the only thing
    printed is the batch the cycle started with, as one indented JSON
    array, at most once; and once every task has returned it has been
    printed exactly once. *)
Theorem cycle_dry_run_prints_carried_batch rt cfg (schedule : list choice)
        (s : state) (l : loop) :
  data s <> [] ->
  exec rt cfg true schedule (cycle_start cfg s) = Some l ->
  let printed :=
    EvPrint (json_dumps_at rt (Some 2%nat) 0 (VList (map VStr (data s)))) in
  (sink_events (st l) = sink_events s
   \/ sink_events (st l) = (sink_events s ++ [printed])%list)
  /\ (cycle_done l = true ->
      sink_events (st l) = (sink_events s ++ [printed])%list).
Proof.
  intros HD E printed.
  assert (I : sink_once (data s) (sink_events s)
                (sink_events s ++ [printed])%list l).
  { eapply sink_once_exec; [| apply sink_once_cycle_start | exact E].
    intros s0 H0 H1. unfold send_data. rewrite H0.
    destruct (data s) as [| a d]; [contradiction |].
    cbn [fst snd]. split; [reflexivity |].
    change (sink_events (emit printed s0) = (sink_events s ++ [printed])%list).
    rewrite sink_events_emit, H1. reflexivity. }
  destruct I as [_ [(P & _ & H) | (_ & H)]].
  - split; [left; exact H |].
    intros D. rewrite (sink_pending_not_done _ D) in P. discriminate P.
  - split; [right; exact H | intros _; exact H].
Qed.

Lemma cycle_dry_run_prints_carried_batch_witness :
  exists l,
    exec Sample.rt Sample.cfg true Sample.schedule
      (cycle_start Sample.cfg
         {| data := ["earlier"]; ticks := 0; trace := [] |}) = Some l
    /\ cycle_done l = true
    /\ List.length (data (st l)) = 2%nat
    /\ sink_events (st l)
       = [EvPrint (json_dumps_at Sample.rt (Some 2%nat) 0
                     (VList [VStr "earlier"]))].
Proof.
  eexists. split; [vm_compute; reflexivity |].
  split; [reflexivity |]. split; [reflexivity |].
  apply (@cycle_dry_run_prints_carried_batch Sample.rt Sample.cfg
           Sample.schedule {| data := ["earlier"]; ticks := 0; trace := [] |}).
  - discriminate.
  - vm_compute. reflexivity.
  - reflexivity.
Defined.

(* ------------------------------------------------------------------ *)
(** ** The collectors and the batch *)

Lemma append_formatted_data (rt : runtime) (message : dict) (s : state) :
  match snd (append_formatted rt message s) with
  | Ok _ => exists line,
      data (fst (append_formatted rt message s)) = (data s ++ [line])%list
  | Err _ => data (fst (append_formatted rt message s)) = data s
  end.
Proof.
  unfold append_formatted.
  destruct (format_message rt (now rt (ticks s)) message) as [line | e];
    cbn [fst snd].
  - exists line. reflexivity.
  - destruct (priority_value message); reflexivity.
Qed.

Lemma sensors_loop_data (rt : runtime) (cfg : config) (sensor_data : pyval)
      (names : list string) : forall s : state,
  exists added,
    data (fst (sensors_loop rt cfg sensor_data names s)) = (data s ++ added)%list
    /\ (List.length added <= List.length names)%nat
    /\ (snd (sensors_loop rt cfg sensor_data names s) = Ok tt ->
        List.length added = List.length names).
Proof.
  induction names as [| n rest IH]; intros s; cbn [sensors_loop].
  - exists []. cbn. rewrite app_nil_r. auto.
  - match goal with |- context [match ?c with Ok _ => _ | Err _ => _ end] =>
      destruct c as [message | e] end.
    + pose proof (append_formatted_data rt message s) as A.
      destruct (append_formatted rt message s) as [s' [u | e]];
        cbn [fst snd] in A.
      * destruct A as [line A]. destruct (IH s') as (added & D & L & K).
        exists (line :: added). rewrite D, A, <- app_assoc.
        cbn [app List.length]. repeat split; [lia |].
        intros R. rewrite (K R). reflexivity.
      * exists []. cbn [fst snd]. rewrite app_nil_r.
        repeat split; [exact A | cbn; lia | discriminate].
    + exists []. cbn [fst snd]. rewrite app_nil_r.
      repeat split; [cbn; lia | discriminate].
Qed.

Lemma finish_ok (r : state * result unit) :
  snd (finish r) = Returned -> snd r = Ok tt.
Proof.
  unfold finish. destruct (snd r) as [[] | e]; cbn; [reflexivity | discriminate].
Qed.

(** X3. A step of a collector, at whatever point the collector stands,
    leaves the lines already in the batch where they are and only adds at
    the end: at most one line when [load_disk] reads the tool's output, at
    most one line per configured sensor when [load_sensors] does, and none
    in any other step. *)
Theorem collectors_only_append rt cfg (dry_run : bool) (p : pc) (resp : string)
        (s : state) :
  is_collector p = true ->
  exists added,
    data (fst (resume rt cfg dry_run p resp s)) = (data s ++ added)%list
    /\ match p with
       | DiskReading _ => (List.length added <= 1)%nat
       | SensorsReading => (List.length added <= List.length (sensor_names cfg))%nat
       | _ => added = []
       end.
Proof.
  intros Hp. destruct p; try discriminate Hp; cbn [resume].
  - exists []. rewrite app_nil_r.
    destruct (load_disk_command cfg disk_name); split; reflexivity.
  - exists []. rewrite app_nil_r. split; reflexivity.
  - destruct (finish_collector (load_disk rt disk_name resp s)) as [_ ->].
    unfold load_disk. destruct (disk_message rt disk_name resp) as [message | e].
    + destruct (Dict.mem message "readings").
      * pose proof (append_formatted_data rt message s) as A.
        destruct (snd (append_formatted rt message s)).
        -- destruct A as [line A]. exists [line]. split; [exact A | cbn; lia].
        -- exists []. rewrite app_nil_r. split; [exact A | cbn; lia].
      * exists []. rewrite app_nil_r. split; [reflexivity | cbn; lia].
    + exists []. rewrite app_nil_r. split; [reflexivity | cbn; lia].
  - exists []. rewrite app_nil_r. split; reflexivity.
  - exists []. rewrite app_nil_r. split; reflexivity.
  - destruct (finish_collector (load_sensors rt cfg resp s)) as [_ ->].
    unfold load_sensors.
    match goal with |- context [match ?c with Ok _ => _ | Err _ => _ end] =>
      destruct c as [sensor_data | e] end.
    + destruct (sensors_loop_data rt cfg sensor_data (sensor_names cfg) s)
        as (added & D & L & _).
      exists added. split; assumption.
    + exists []. rewrite app_nil_r. split; [reflexivity | cbn; lia].
  - exists []. rewrite app_nil_r. split; reflexivity.
  - exists []. rewrite app_nil_r. split; reflexivity.
Qed.

Lemma collectors_only_append_witness :
  exists added,
    data (fst (resume Sample.rt Sample.cfg false SensorsReading
                 Sample.sensors_output
                 {| data := ["earlier"]; ticks := 0; trace := [] |}))
    = ("earlier" :: added)%list
    /\ (List.length added <= 1)%nat.
Proof.
  apply (@collectors_only_append Sample.rt Sample.cfg false SensorsReading
           Sample.sensors_output
           {| data := ["earlier"]; ticks := 0; trace := [] |}).
  reflexivity.
Defined.

(** X4. When [load_sensors] returns without raising, it has appended to
    the batch exactly one line for each name in [sensor_names], after the
    lines that were there, and has sent or printed nothing. *)
Theorem load_sensors_one_line_per_sensor rt cfg (stdout : string)
        (s s' : state) :
  load_sensors rt cfg stdout s = (s', Ok tt) ->
  exists added,
    data s' = (data s ++ added)%list
    /\ List.length added = List.length (sensor_names cfg)
    /\ trace s' = trace s.
Proof.
  intros E. pose proof (load_sensors_trace rt cfg stdout s) as T.
  rewrite E in T. cbn [fst] in T.
  unfold load_sensors in E.
  destruct (text <- decode rt stdout ;; json_loads rt text)
    as [sensor_data | e]; [| discriminate].
  destruct (sensors_loop_data rt cfg sensor_data (sensor_names cfg) s)
    as (added & D & _ & K).
  rewrite E in D, K. cbn [fst snd] in D, K.
  exists added. repeat split; auto.
Qed.

Lemma load_sensors_one_line_per_sensor_witness :
  exists s' added,
    load_sensors Sample.rt Sample.cfg Sample.sensors_output Sample.empty
    = (s', Ok tt)
    /\ data s' = added
    /\ List.length added = 1%nat
    /\ trace s' = [].
Proof.
  eexists.
  assert (E : load_sensors Sample.rt Sample.cfg Sample.sensors_output
                Sample.empty = (_, Ok tt)) by (vm_compute; reflexivity).
  destruct (@load_sensors_one_line_per_sensor Sample.rt Sample.cfg
              Sample.sensors_output Sample.empty _ E) as (added & D & L & T).
  exists added. repeat split; assumption.
Defined.

(* ------------------------------------------------------------------ *)
(** ** [send_data] over a connection *)

Lemma send_data_loop_drains rt cfg (lines : list string) :
  forall (s : state) (p : pc),
    p = SinkConnecting \/ p = SinkDraining ->
    data s = lines ->
    exec rt cfg false (alone (List.length lines + 2))
      {| st := s; ready := []; blocked := [p]; failure := None |}
    = Some {| st := {| data := []; ticks := ticks s;
                       trace := (trace s ++ written lines ++ [EvClose])%list |};
              ready := []; blocked := []; failure := None |}.
Proof.
  induction lines as [| line rest IH]; intros s p Hp HD.
  - destruct Hp as [-> | ->];
      cbn [List.length Nat.add alone exec exec_choice failure blocked
           nth_error ready st remove_nth app resume];
      unfold send_data_loop; rewrite HD;
      cbn [exec exec_choice failure blocked nth_error ready st remove_nth
           app resume written map emit data ticks trace];
      unfold emit; cbn [written map app]; try rewrite HD; reflexivity.
  - assert (step :
      exec rt cfg false (alone (List.length (line :: rest) + 2))
        {| st := s; ready := []; blocked := [p]; failure := None |}
      = exec rt cfg false (alone (List.length rest + 2))
          {| st := set_data rest
                     (emit (EvWrite (encode (line ++ String newline ""))) s);
             ready := []; blocked := [SinkDraining]; failure := None |}).
    { destruct Hp as [-> | ->];
        cbn [List.length Nat.add alone exec exec_choice failure blocked
             nth_error ready st remove_nth app resume];
        unfold send_data_loop; rewrite HD; reflexivity. }
    rewrite step.
    rewrite (IH (set_data rest
                   (emit (EvWrite (encode (line ++ String newline ""))) s))
                SinkDraining (or_intror eq_refl) eq_refl).
    cbn [set_data emit data ticks trace written map].
    rewrite <- app_assoc. reflexivity.
Qed.

(** X5. Outside dry-run mode, [send_data] running on a non-empty batch
    with no other task opens one connection to the configured logger,
    writes every line of the batch in batch order, each followed by one
    newline and encoded, closes the writer, and leaves the batch empty. *)
Theorem send_data_drains_in_order rt cfg (s : state) :
  data s <> [] ->
  exec rt cfg false (RunNext :: alone (List.length (data s) + 2))
    (only SinkStart s)
  = Some {| st := {| data := []; ticks := ticks s;
                     trace := (trace s
                               ++ EvConnect (logger_addr cfg) (logger_port cfg)
                                    :: written (data s) ++ [EvClose])%list |};
            ready := []; blocked := []; failure := None |}.
Proof.
  intros NE.
  assert (first :
    exec rt cfg false (RunNext :: alone (List.length (data s) + 2))
      (only SinkStart s)
    = exec rt cfg false (alone (List.length (data s) + 2))
        {| st := emit (EvConnect (logger_addr cfg) (logger_port cfg)) s;
           ready := []; blocked := [SinkConnecting]; failure := None |}).
  { unfold only.
    cbn [exec exec_choice failure ready resume st blocked app].
    unfold send_data.
    destruct (data s) as [| line rest]; [contradiction | reflexivity]. }
  rewrite first.
  rewrite (@send_data_loop_drains rt cfg (data s)
             (emit (EvConnect (logger_addr cfg) (logger_port cfg)) s)
             SinkConnecting (or_introl eq_refl) eq_refl).
  cbn [emit ticks trace]. rewrite <- app_assoc. reflexivity.
Qed.

Lemma send_data_drains_in_order_witness :
  exec Sample.rt Sample.cfg false (RunNext :: alone 4)
    (only SinkStart {| data := ["a"; "b"]; ticks := 2; trace := [] |})
  = Some {| st := {| data := []; ticks := 2;
                     trace := [EvConnect "loghost" 514;
                               EvWrite ("a" ++ String newline "");
                               EvWrite ("b" ++ String newline "");
                               EvClose] |};
            ready := []; blocked := []; failure := None |}.
Proof.
  apply (@send_data_drains_in_order Sample.rt Sample.cfg
           {| data := ["a"; "b"]; ticks := 2; trace := [] |}).
  discriminate.
Defined.

(* ------------------------------------------------------------------ *)
(** ** [format_message]: what raises, and the keys of the payload *)

(** X6. A message whose [readings] is the empty list makes
    [format_message] raise [TypeError], the error of [reduce] on an empty
    sequence: the division by the length, which is zero, is never
    reached. *)
Theorem format_message_no_samples rt t (message : dict) (v : Z) (n : pyval) :
  priority_value message = Ok v ->
  Dict.get message "name" = Some n ->
  Dict.get message "readings" = Some (VList []) ->
  format_message rt t message = Err TypeError.
Proof.
  intros HV Hn Hr. unfold format_message, payload, getitem.
  rewrite HV, Hn, Hr. reflexivity.
Qed.

Lemma format_message_no_samples_witness :
  format_message Sample.rt Sample.clock
    [("name", VStr "cpu"); ("readings", VList [])] = Err TypeError.
Proof.
  apply (@format_message_no_samples Sample.rt Sample.clock
           [("name", VStr "cpu"); ("readings", VList [])] 30 (VStr "cpu"));
    reflexivity.
Defined.

(** X7. A message without the key [name], or without the key [readings],
    makes [format_message] raise [KeyError]. *)
Theorem format_message_missing_key rt t (message : dict) (v : Z) :
  priority_value message = Ok v ->
  Dict.get message "name" = None \/ Dict.get message "readings" = None ->
  format_message rt t message = Err KeyError.
Proof.
  intros HV H. unfold format_message, payload, getitem. rewrite HV.
  cbn [bind]. destruct (Dict.get message "name") as [n |].
  - destruct H as [H | H]; [discriminate H |]. rewrite H. reflexivity.
  - reflexivity.
Qed.

Lemma format_message_missing_key_witness :
  format_message Sample.rt Sample.clock [("name", VStr "sda")] = Err KeyError
  /\ format_message Sample.rt Sample.clock [("readings", VList [VInt 35])]
     = Err KeyError.
Proof.
  split.
  - apply (@format_message_missing_key Sample.rt Sample.clock
             [("name", VStr "sda")] 30); [reflexivity | right; reflexivity].
  - apply (@format_message_missing_key Sample.rt Sample.clock
             [("readings", VList [VInt 35])] 30);
      [reflexivity | left; reflexivity].
Defined.

Lemma literal_stamps (h t : pyval) (n : string) (mean : pyval) (k : string)
      (x : option pyval) :
  fold_left (fun acc kv => if String.eqb (fst kv) k then Some (snd kv) else acc)
    (Dict.literal [("hostname", h); ("timereported", t); (n, mean)]) x
  = if String.eqb n k then Some mean
    else if String.eqb "timereported" k then Some t
    else if String.eqb "hostname" k then Some h
    else x.
Proof.
  unfold Dict.literal, Dict.update.
  cbn [fold_left Dict.set fst snd].
  change (String.eqb "hostname" "timereported") with false.
  cbn [fold_left Dict.set fst snd].
  destruct (String.eqb_spec "hostname" n) as [<- | NH];
    cbn [fold_left fst snd].
  - destruct (String.eqb_spec "timereported" k) as [E1 | NT];
      destruct (String.eqb_spec "hostname" k) as [E2 | NK];
      try reflexivity. rewrite <- E1 in E2. discriminate E2.
  - destruct (String.eqb_spec "timereported" n) as [<- | NT];
      cbn [fold_left fst snd].
    + destruct (String.eqb "timereported" k); reflexivity.
    + reflexivity.
Qed.

(** X8. The keys of the object handed to [json.dumps], for a message
    whose name is the string [n]: [readings] is never a key; under [n] is
    the mean; the time stamp and the host name are set by the program,
    whatever the message held under these keys, unless [n] is one of the
    two; every other key holds what the message held. *)
Theorem payload_lookup rt t (message : dict) (n : string) (body : dict) :
  Dict.get message "name" = Some (VStr n) ->
  payload rt t message = Ok body ->
  exists readings mean,
    Dict.get message "readings" = Some readings
    /\ mean_of readings = Ok mean
    /\ forall k,
         Dict.get body k
         = if String.eqb "readings" k then None
           else if String.eqb n k then Some mean
           else if String.eqb "timereported" k
                then Some (VStr (isoformat_local t))
           else if String.eqb "hostname" k then Some (VStr (nodename rt))
           else Dict.get message k.
Proof.
  intros Hn HP. unfold payload, getitem in HP. rewrite Hn in HP.
  cbn [bind] in HP.
  destruct (Dict.get message "readings") as [readings |] eqn:Hr;
    [| discriminate HP].
  cbn [bind] in HP.
  destruct (mean_of readings) as [mean | e] eqn:Hm; [| discriminate HP].
  cbn [bind as_key] in HP.
  match type of HP with (if ?c then _ else _) = _ =>
    destruct c; [| discriminate HP] end.
  injection HP as <-.
  exists readings, mean. split; [reflexivity | split; [exact Hm |]].
  intros k. rewrite get_remove, get_update, literal_stamps. reflexivity.
Qed.

Lemma payload_lookup_witness :
  exists body,
    payload Sample.rt Sample.clock
      [("name", VStr "sda"); ("readings", VList [VInt 35]);
       ("model", VStr "WDC WD10EZEX")] = Ok body
    /\ Dict.get body "readings" = None
    /\ Dict.get body "model" = Some (VStr "WDC WD10EZEX")
    /\ Dict.get body "hostname" = Some (VStr (nodename Sample.rt))
    /\ Dict.get body "sda" = Some (VFloat 35).
Proof.
  eexists. split; [vm_compute; reflexivity |].
  destruct (@payload_lookup Sample.rt Sample.clock
              [("name", VStr "sda"); ("readings", VList [VInt 35]);
               ("model", VStr "WDC WD10EZEX")] "sda" _ eq_refl eq_refl)
    as (readings & mean & Hr & Hm & K).
  injection Hr as <-. injection Hm as <-.
  rewrite !K. repeat split.
Defined.

(* ------------------------------------------------------------------ *)
(** ** [select_readings]: deeper levels *)

Lemma select_readings_not_a_dict (v : pyval) (sensor_device : list regex) :
  items_of v = Err AttributeError ->
  select_readings v sensor_device = Err AttributeError.
Proof.
  intros H. destruct sensor_device as [| p [| q rest]]; cbn [select_readings];
    rewrite H; reflexivity.
Qed.

(** X9. With two selectors or more, when the first key the first
    selector matches holds a value that is not a dict (a string, a number),
    [select_readings] raises [AttributeError]: the selectors go deeper
    than the tree.  The [Adapter] entry of a chip is such a value. *)
Theorem select_readings_leaf_too_early (p q : regex) (rest : list regex)
        (d : dict) (key : string) (v : pyval) (more : dict) :
  matching p d = (key, v) :: more ->
  items_of v = Err AttributeError ->
  select_readings (VDict d) (p :: q :: rest) = Err AttributeError.
Proof.
  intros HM HV.
  change (select_readings (VDict d) (p :: q :: rest))
    with (subs <- mapM (fun kv => select_readings (snd kv) (q :: rest))
                    (matching p d) ;;
          reduce list_add subs).
  rewrite HM. cbn [mapM snd].
  rewrite (select_readings_not_a_dict v (q :: rest) HV). reflexivity.
Qed.

Lemma select_readings_leaf_too_early_witness :
  select_readings Sample.sensors_tree
    [Lit "coretemp"; Sample.any; Cat (Lit "temp") (Cat Dot (Lit "_input"))]
  = Err AttributeError
  /\ select_readings
       (VDict [("Adapter", VStr "ISA adapter");
               ("Core 0", VDict [("temp2_input", VFloat 42)])])
       [Sample.any; Lit "temp"] = Err AttributeError.
Proof.
  split; [vm_compute; reflexivity |].
  apply (@select_readings_leaf_too_early Sample.any (Lit "temp") []
           [("Adapter", VStr "ISA adapter");
            ("Core 0", VDict [("temp2_input", VFloat 42)])]
           "Adapter" (VStr "ISA adapter")
           [("Core 0", VDict [("temp2_input", VFloat 42)])]);
    reflexivity.
Defined.

(** X10. With two selectors or more and at least one key matched by the
    first, [select_readings] gives the concatenation, in key order, of the
    selections in the matched children with the remaining selectors; the
    first child selection that raises makes the whole selection raise the
    same exception. *)
Theorem select_readings_concat_when_matched (p q : regex) (rest : list regex)
        (d : dict) :
  matching p d <> [] ->
  select_readings (VDict d) (p :: q :: rest)
  = (subs <- mapM (fun kv => select_readings (snd kv) (q :: rest))
               (matching p d) ;;
     Ok (List.concat subs)).
Proof.
  intros NE.
  destruct (mapM (fun kv => select_readings (snd kv) (q :: rest)) (matching p d))
    as [subs | e] eqn:HM.
  - cbn [bind]. apply select_readings_recursive; assumption.
  - change (select_readings (VDict d) (p :: q :: rest))
      with (subs <- mapM (fun kv => select_readings (snd kv) (q :: rest))
                      (matching p d) ;;
            reduce list_add subs).
    rewrite HM. reflexivity.
Qed.

Lemma select_readings_concat_when_matched_witness :
  select_readings Sample.sensors_tree
    [Lit "coretemp"; Lit "Core"; Cat (Lit "temp") (Cat Dot (Lit "_input"))]
  = Ok [VFloat 42; VFloat 44].
Proof.
  unfold Sample.sensors_tree.
  rewrite (@select_readings_concat_when_matched (Lit "coretemp") (Lit "Core")
             [Cat (Lit "temp") (Cat Dot (Lit "_input"))]
             [("coretemp-isa-0000",
               VDict [("Adapter", VStr "ISA adapter");
                      ("Core 0", VDict [("temp2_input", VFloat 42);
                                        ("temp2_max", VFloat 80)]);
                      ("Core 1", VDict [("temp3_input", VFloat 44);
                                        ("temp3_max", VFloat 80)])])]).
  - vm_compute. reflexivity.
  - vm_compute. discriminate.
Defined.

(* ------------------------------------------------------------------ *)
(** ** [load_sensors]: what success needs *)

Lemma append_formatted_ok rt (message : dict) (s s' : state) (u : unit) :
  append_formatted rt message s = (s', Ok u) ->
  exists line, format_message rt (now rt (ticks s)) message = Ok line.
Proof.
  unfold append_formatted.
  destruct (format_message rt (now rt (ticks s)) message) as [line | e].
  - intros _. exists line. reflexivity.
  - intros H. discriminate H.
Qed.

Lemma sensors_loop_success rt cfg (sensor_data : pyval) (names : list string) :
  forall s s' : state,
    sensors_loop rt cfg sensor_data names s = (s', Ok tt) ->
    forall n, In n names ->
      exists sensor_device readings,
        assoc (sensor_devices cfg) n = Some sensor_device
        /\ select_readings sensor_data sensor_device = Ok readings
        /\ readings <> [].
Proof.
  induction names as [| n0 rest IH]; intros s s' E n HIn; [destruct HIn |].
  cbn [sensors_loop] in E. unfold lookup in E.
  destruct (assoc (sensor_devices cfg) n0) as [dev |] eqn:HA;
    [| discriminate E].
  cbn [bind] in E.
  destruct (select_readings sensor_data dev) as [readings | e] eqn:HS;
    [| discriminate E].
  cbn [bind] in E.
  destruct (append_formatted rt
              [("name", VStr n0); ("readings", VList readings)] s)
    as [s1 [u | e]] eqn:HF; [| discriminate E].
  destruct HIn as [<- | HIn].
  - exists dev, readings. repeat split; try assumption.
    intros ->. apply append_formatted_ok in HF. destruct HF as [line HF].
    vm_compute in HF. discriminate HF.
  - apply (IH s1 s' E n HIn).
Qed.

(** X11. [load_sensors] returns without raising only if the tool's output
    was parsed and every configured sensor name has an entry in
    [sensor_devices] whose selectors select at least one reading. *)
Theorem load_sensors_success_requires rt cfg (stdout : string) (s s' : state) :
  load_sensors rt cfg stdout s = (s', Ok tt) ->
  exists sensor_data,
    (text <- decode rt stdout ;; json_loads rt text) = Ok sensor_data
    /\ forall n, In n (sensor_names cfg) ->
         exists sensor_device readings,
           assoc (sensor_devices cfg) n = Some sensor_device
           /\ select_readings sensor_data sensor_device = Ok readings
           /\ readings <> [].
Proof.
  unfold load_sensors.
  destruct (text <- decode rt stdout ;; json_loads rt text)
    as [sensor_data | e]; [| discriminate].
  intros E. exists sensor_data. split; [reflexivity |].
  apply (sensors_loop_success _ _ _ _ _ E).
Qed.

Lemma load_sensors_success_requires_witness :
  exists sensor_data,
    (text <- decode Sample.rt Sample.sensors_output ;; json_loads Sample.rt text)
    = Ok sensor_data
    /\ forall n, In n ["cpu"] ->
         exists sensor_device readings,
           assoc (sensor_devices Sample.cfg) n = Some sensor_device
           /\ select_readings sensor_data sensor_device = Ok readings
           /\ readings <> [].
Proof.
  apply (@load_sensors_success_requires Sample.rt Sample.cfg
           Sample.sensors_output Sample.empty
           (fst (load_sensors Sample.rt Sample.cfg Sample.sensors_output
                   Sample.empty))).
  vm_compute. reflexivity.
Defined.

(* ------------------------------------------------------------------ *)
(** ** [load_disk]: which row gives the reading *)

Lemma scan_rows_app (a b : list (list string)) : forall message,
  scan_rows message (a ++ b)%list
  = (message' <- scan_rows message a ;; scan_rows message' b).
Proof.
  induction a as [| row a IH]; intros message; cbn [app scan_rows].
  - reflexivity.
  - destruct (scan_row message row) as [m1 | e]; cbn [bind].
    + apply IH.
    + reflexivity.
Qed.

Lemma scan_row_attribute (message : dict) (line : list string) (tok : string)
      (v : Z) :
  is_attribute_row line = true ->
  nth_error line 9 = Some tok ->
  py_int tok = Ok v ->
  scan_row message line = Ok (Dict.set message "readings" (VList [VInt v])).
Proof.
  intros HR HT HV. unfold scan_row.
  unfold is_attribute_row in HR. unfold index. rewrite HT.
  destruct line as [| t row]; [discriminate HR |].
  cbn [nonempty andb head_is] in *. rewrite HR. cbn [bind]. rewrite HV.
  cbn [bind].
  assert (ND : String.eqb t "Device" = false /\ String.eqb t "Serial" = false).
  { apply orb_true_iff in HR. destruct HR as [E | E];
      apply String.eqb_eq in E; subst t; split; reflexivity. }
  destruct ND as [-> ->]. reflexivity.
Qed.

(** X12. On an output every line of which decodes and whose rows have the
    shape the parser relies on, the reading of the disk is the tenth token
    of the last row that starts with [190] or [194]: an earlier attribute
    row is overwritten. *)
Theorem disk_message_last_attribute_row rt (disk_name stdout : string)
        (pre : list (list string)) (row : list string)
        (post : list (list string)) (tok : string) (v : Z) :
  table rt stdout = Ok (pre ++ row :: post)%list ->
  forallb row_ok (pre ++ row :: post)%list = true ->
  is_attribute_row row = true ->
  existsb is_attribute_row post = false ->
  nth_error row 9 = Some tok ->
  py_int tok = Ok v ->
  exists message,
    disk_message rt disk_name stdout = Ok message
    /\ Dict.get message "readings" = Some (VList [VInt v]).
Proof.
  intros HL HW HR HP HT HV.
  rewrite (@disk_message_rows rt disk_name stdout _ HL).
  rewrite forallb_app in HW. cbn [forallb] in HW.
  apply andb_true_iff in HW as [HW1 HW2].
  apply andb_true_iff in HW2 as [HW2 HW3].
  rewrite scan_rows_app.
  destruct (scan_rows_ok pre [("name", VStr disk_name)] HW1)
    as (m1 & -> & _ & _).
  cbn [bind scan_rows].
  rewrite (scan_row_attribute m1 row HR HT HV). cbn [bind].
  destruct (scan_rows_ok post
              (Dict.set m1 "readings" (VList [VInt v])) HW3)
    as (final & -> & _ & R).
  rewrite HP in R. exists final. split; [reflexivity |].
  rewrite R, get_set. reflexivity.
Qed.

Lemma disk_message_last_attribute_row_witness :
  exists message,
    disk_message Sample.rt "sda"
      ("190 Airflow_Temperature 0x0022 060 050 000 Old_age Always - 40"
       ++ Sample.nl ++
       "194 Temperature_Celsius 0x0022 110 099 000 Old_age Always - 35"
       ++ Sample.nl ++ "SMART overall-health: PASSED") = Ok message
    /\ Dict.get message "readings" = Some (VList [VInt 35]).
Proof.
  apply (@disk_message_last_attribute_row Sample.rt "sda"
           ("190 Airflow_Temperature 0x0022 060 050 000 Old_age Always - 40"
            ++ Sample.nl ++
            "194 Temperature_Celsius 0x0022 110 099 000 Old_age Always - 35"
            ++ Sample.nl ++ "SMART overall-health: PASSED")
           [split "190 Airflow_Temperature 0x0022 060 050 000 Old_age Always - 40"]
           (split "194 Temperature_Celsius 0x0022 110 099 000 Old_age Always - 35")
           [split "SMART overall-health: PASSED"] "35" 35);
    vm_compute; reflexivity.
Defined.

(* ------------------------------------------------------------------ *)
(** ** The scheduler's sleep: where it ends, and intervals that are not
    positive *)

(** X13. For a positive interval, the sleep ends exactly on a multiple of
    the interval, and on the first one after the reading of the clock: a
    reading that is itself a multiple sleeps a whole interval. *)
Theorem sleep_ends_on_next_boundary (cfg : config) (time_time : Q) :
  (0 < INTERVAL cfg)%Z ->
  exists (d : Q) (k : Z),
    sleep_duration cfg time_time = Ok d
    /\ (time_time + d == inject_Z k * inject_Z (INTERVAL cfg))%Q
    /\ (inject_Z (k - 1) * inject_Z (INTERVAL cfg) <= time_time)%Q
    /\ (time_time < inject_Z k * inject_Z (INTERVAL cfg))%Q.
Proof.
  intros Hb.
  destruct (py_mod_spec time_time Hb) as (r & Hr & R0 & R1 & Rk).
  set (f := Qfloor (time_time / inject_Z (INTERVAL cfg))) in *.
  exists (inject_Z (INTERVAL cfg) - r)%Q, (f + 1)%Z.
  unfold sleep_duration. rewrite Hr. cbn [bind].
  split; [reflexivity |].
  replace (f + 1 - 1)%Z with f by lia. rewrite inject_Z_plus.
  split; [| split].
  - rewrite Rk at 1. change (inject_Z 1) with 1%Q. ring.
  - rewrite Rk.
    rewrite <- (Qplus_0_r (inject_Z f * inject_Z (INTERVAL cfg))) at 1.
    apply Qplus_le_r. exact R0.
  - rewrite Rk at 1.
    setoid_replace ((inject_Z f + inject_Z 1) * inject_Z (INTERVAL cfg))%Q
      with (inject_Z f * inject_Z (INTERVAL cfg) + inject_Z (INTERVAL cfg))%Q
      by (change (inject_Z 1) with 1%Q; ring).
    apply Qplus_lt_r. exact R1.
Qed.

Lemma sleep_ends_on_next_boundary_witness :
  exists (d : Q) (k : Z),
    sleep_duration Sample.cfg (2143 # 10) = Ok d
    /\ ((2143 # 10) + d == inject_Z k * 60)%Q
    /\ (inject_Z (k - 1) * 60 <= 2143 # 10)%Q
    /\ ((2143 # 10) < inject_Z k * 60)%Q.
Proof.
  apply (@sleep_ends_on_next_boundary Sample.cfg (2143 # 10)). reflexivity.
Defined.

(** [a % b] for a negative [b] has the sign of [b]: it lies in [(b, 0]]. *)
Lemma py_mod_negative (a : Q) (b : Z) :
  (b < 0)%Z ->
  exists r, py_mod a b = Ok r /\ (inject_Z b < r)%Q /\ (r <= 0)%Q.
Proof.
  intros Hb. unfold py_mod.
  replace (Z.eqb b 0) with false by (symmetry; apply Z.eqb_neq; lia).
  eexists. split; [reflexivity |].
  assert (Pb : (0 < - inject_Z b)%Q).
  { rewrite <- inject_Z_opp. change 0%Q with (inject_Z 0).
    rewrite <- Zlt_Qlt. lia. }
  assert (Nb : ~ (inject_Z b == 0)%Q).
  { intros E. rewrite E in Pb. now apply Qlt_irrefl in Pb. }
  set (k := Qfloor (a / inject_Z b)).
  assert (L : (inject_Z k <= a / inject_Z b)%Q) by apply Qfloor_le.
  assert (U : (a / inject_Z b < inject_Z (k + 1))%Q) by apply Qlt_floor.
  assert (Ex : (a / inject_Z b * - inject_Z b == - a)%Q).
  { setoid_replace (a / inject_Z b * - inject_Z b)%Q
      with (- (inject_Z b * (a / inject_Z b)))%Q by ring.
    rewrite Qmult_div_r by assumption. reflexivity. }
  assert (L' : (inject_Z k * - inject_Z b <= a / inject_Z b * - inject_Z b)%Q).
  { apply Qmult_le_compat_r; [assumption | now apply Qlt_le_weak]. }
  assert (U' : (a / inject_Z b * - inject_Z b
                < inject_Z (k + 1) * - inject_Z b)%Q).
  { apply Qmult_lt_compat_r; assumption. }
  rewrite Ex in L', U'. rewrite inject_Z_plus in U'.
  split.
  - apply (Qplus_lt_l _ _ (- a - inject_Z b)%Q). ring_simplify.
    setoid_replace ((inject_Z k + inject_Z 1) * - inject_Z b)%Q
      with (-1 * inject_Z b * inject_Z k - inject_Z b)%Q in U'
      by (change (inject_Z 1) with 1%Q; ring).
    setoid_replace (-1 * a)%Q with (- a)%Q by ring. exact U'.
  - apply (Qplus_le_l _ _ (- a)%Q). ring_simplify.
    setoid_replace (inject_Z k * - inject_Z b)%Q
      with (-1 * inject_Z b * inject_Z k)%Q in L' by ring.
    setoid_replace (-1 * a)%Q with (- a)%Q by ring. exact L'.
Qed.

(** X14. An interval of zero makes the computation of the sleep raise
    [ZeroDivisionError]; a negative interval gives a negative sleep, not
    below the interval. *)
Theorem sleep_duration_interval_not_positive (cfg : config) (time_time : Q) :
  (INTERVAL cfg = 0%Z ->
   sleep_duration cfg time_time = Err ZeroDivisionError)
  /\ ((INTERVAL cfg < 0)%Z ->
      exists d, sleep_duration cfg time_time = Ok d
                /\ (inject_Z (INTERVAL cfg) <= d)%Q /\ (d < 0)%Q).
Proof.
  split.
  - intros E. unfold sleep_duration, py_mod. rewrite E. reflexivity.
  - intros Hb. destruct (py_mod_negative time_time Hb) as (r & Hr & R1 & R0).
    exists (inject_Z (INTERVAL cfg) - r)%Q.
    unfold sleep_duration. rewrite Hr. cbn [bind].
    split; [reflexivity | split].
    + apply (Qplus_le_l _ _ r). ring_simplify.
      rewrite <- (Qplus_0_r (inject_Z (INTERVAL cfg))) at 2.
      apply Qplus_le_r. exact R0.
    + apply (Qplus_lt_l _ _ r). ring_simplify. exact R1.
Qed.

Lemma sleep_duration_interval_not_positive_witness :
  sleep_duration
    {| logger_addr := "loghost"; logger_port := 514; INTERVAL := 0;
       disk_names := []; disk_devices := []; disk_kinds := None;
       sensor_names := []; sensor_devices := [] |} 23
  = Err ZeroDivisionError
  /\ exists d,
       sleep_duration
         {| logger_addr := "loghost"; logger_port := 514; INTERVAL := -60;
            disk_names := []; disk_devices := []; disk_kinds := None;
            sensor_names := []; sensor_devices := [] |} 23 = Ok d
       /\ (-60 <= d)%Q /\ (d < 0)%Q.
Proof.
  split.
  - apply (proj1 (@sleep_duration_interval_not_positive
             {| logger_addr := "loghost"; logger_port := 514; INTERVAL := 0;
                disk_names := []; disk_devices := []; disk_kinds := None;
                sensor_names := []; sensor_devices := [] |} 23)).
    reflexivity.
  - apply (proj2 (@sleep_duration_interval_not_positive
             {| logger_addr := "loghost"; logger_port := 514; INTERVAL := -60;
                disk_names := []; disk_devices := []; disk_kinds := None;
                sensor_names := []; sensor_devices := [] |} 23)).
    reflexivity.
Defined.

(* ------------------------------------------------------------------ *)
(** ** Live mode: no line is lost, repeated or reordered *)

Lemma writes_sink_events (s : state) :
  writes s = filter is_write (sink_events s).
Proof.
  unfold writes, sink_events. induction (trace s) as [| e t IH]; cbn.
  - reflexivity.
  - destruct e; cbn; rewrite ?IH; reflexivity.
Qed.

Lemma writes_emit (e : event) (s : state) :
  writes (emit e s) = (writes s ++ filter is_write [e])%list.
Proof. unfold writes, emit. cbn [trace]. apply filter_app. Qed.

Lemma writes_set_data (d : list string) (s : state) :
  writes (set_data d s) = writes s.
Proof. reflexivity. Qed.

Lemma resume_collector_data rt cfg (dry_run : bool) (p : pc) (resp : string)
      (s : state) :
  is_collector p = true ->
  exists added,
    data (fst (resume rt cfg dry_run p resp s)) = (data s ++ added)%list.
Proof.
  intros Hp. destruct p; try discriminate Hp; cbn [resume];
    try (exists []; rewrite app_nil_r; reflexivity).
  - exists []. rewrite app_nil_r.
    destruct (load_disk_command cfg disk_name); reflexivity.
  - destruct (finish_collector (load_disk rt disk_name resp s)) as [_ ->].
    unfold load_disk. destruct (disk_message rt disk_name resp) as [message | e].
    + destruct (Dict.mem message "readings").
      * pose proof (append_formatted_data rt message s) as A.
        destruct (snd (append_formatted rt message s)).
        -- destruct A as [line A]. exists [line]. exact A.
        -- exists []. rewrite app_nil_r. exact A.
      * exists []. rewrite app_nil_r. reflexivity.
    + exists []. rewrite app_nil_r. reflexivity.
  - destruct (finish_collector (load_sensors rt cfg resp s)) as [_ ->].
    unfold load_sensors.
    match goal with |- context [match ?c with Ok _ => _ | Err _ => _ end] =>
      destruct c as [sensor_data | e] end.
    + destruct (sensors_loop_data rt cfg sensor_data (sensor_names cfg) s)
        as (added & D & _).
      exists added. exact D.
    + exists []. rewrite app_nil_r. reflexivity.
Qed.

Lemma skipn_length_app {A : Type} (a b : list A) :
  skipn (List.length a) (a ++ b)%list = b.
Proof. induction a as [| x a IH]; cbn; [reflexivity | exact IH]. Qed.

Lemma resume_conserves rt cfg (p : pc) (resp : string) (s : state) :
  (writes (fst (resume rt cfg false p resp s))
   ++ written (data (fst (resume rt cfg false p resp s))))%list
  = (writes s ++ written (data s ++ appended rt cfg false p resp s))%list.
Proof.
  unfold appended. destruct (is_collector p) eqn:Hp.
  - destruct (resume_collector_data rt cfg false p resp s Hp) as [added D].
    destruct (@resume_collector rt cfg false p resp s Hp) as [_ E].
    rewrite D, skipn_length_app, !writes_sink_events, E. reflexivity.
  - rewrite app_nil_r.
    destruct p; try discriminate Hp; cbn [resume].
    + unfold send_data. destruct (data s) as [| line rest] eqn:HD;
        cbn [fst]; [rewrite HD; reflexivity |].
      rewrite writes_emit. cbn [emit data filter is_write].
      rewrite app_nil_r, HD. reflexivity.
    + unfold send_data_loop. destruct (data s) as [| line rest] eqn:HD;
        cbn [fst].
      * rewrite writes_emit. cbn [emit data filter is_write].
        rewrite app_nil_r, HD. reflexivity.
      * rewrite writes_set_data, writes_emit.
        cbn [set_data data filter is_write written map].
        rewrite <- app_assoc. reflexivity.
    + unfold send_data_loop. destruct (data s) as [| line rest] eqn:HD;
        cbn [fst].
      * rewrite writes_emit. cbn [emit data filter is_write].
        rewrite app_nil_r, HD. reflexivity.
      * rewrite writes_set_data, writes_emit.
        cbn [set_data data filter is_write written map].
        rewrite <- app_assoc. reflexivity.
    + reflexivity.
Qed.

Lemma exec_choice_conserves rt cfg (c : choice) (l l' : loop) :
  exec_choice rt cfg false c l = Some l' ->
  (writes (st l') ++ written (data (st l')))%list
  = (writes (st l)
     ++ written (data (st l)
                 ++ match c, ready l with
                    | RunNext, (p, resp) :: _ =>
                        appended rt cfg false p resp (st l)
                    | _, _ => []
                    end))%list.
Proof.
  intros E. destruct c as [| i resp].
  - destruct (run_next_shape _ _ _ _ E) as (p & resp & rest & -> & -> & _).
    apply resume_conserves.
  - destruct (complete_shape _ _ _ _ _ _ E) as (p & _ & -> & _).
    rewrite app_nil_r. reflexivity.
Qed.

(** X15. Outside dry-run mode, whatever the loop does and from whatever
    point: the lines written so far followed by the lines still in the
    batch are the lines written before, followed by the batch as it was
    and then by the lines the steps of the collectors have added since, in
    the order in which they added them.  No line is lost, written twice or
    written out of order, and nothing is written that no collector
    added. *)
Theorem live_mode_conserves_lines rt cfg (schedule : list choice) :
  forall l l' : loop,
    exec rt cfg false schedule l = Some l' ->
    (writes (st l') ++ written (data (st l')))%list
    = (writes (st l)
       ++ written (data (st l) ++ collected rt cfg false schedule l))%list.
Proof.
  induction schedule as [| c schedule IH]; intros l l' E;
    cbn [exec collected] in *.
  - injection E as <-. rewrite app_nil_r. reflexivity.
  - destruct (exec_choice rt cfg false c l) as [l1 |] eqn:E1; [| discriminate].
    rewrite (IH l1 l' E). unfold written in *.
    rewrite (app_assoc (data (st l))).
    rewrite (map_app _ (data (st l1))).
    rewrite (map_app _ (data (st l) ++ _)%list).
    rewrite !app_assoc.
    pose proof (exec_choice_conserves _ _ _ _ E1) as H1.
    unfold written in H1. rewrite H1. reflexivity.
Qed.

Lemma live_mode_conserves_lines_witness :
  exists l,
    exec Sample.rt Sample.cfg false Sample.live_schedule
      (cycle_start Sample.cfg
         {| data := ["earlier"]; ticks := 0; trace := [] |}) = Some l
    /\ cycle_done l = true
    /\ List.length (writes (st l)) = 2%nat
    /\ List.length (data (st l)) = 1%nat
    /\ List.length
         (collected Sample.rt Sample.cfg false Sample.live_schedule
            (cycle_start Sample.cfg
               {| data := ["earlier"]; ticks := 0; trace := [] |})) = 2%nat
    /\ (writes (st l) ++ written (data (st l)))%list
       = written
           ("earlier"
            :: collected Sample.rt Sample.cfg false Sample.live_schedule
                 (cycle_start Sample.cfg
                    {| data := ["earlier"]; ticks := 0; trace := [] |})).
Proof.
  eexists. split; [vm_compute; reflexivity |].
  split; [reflexivity |]. split; [reflexivity |]. split; [reflexivity |].
  split; [vm_compute; reflexivity |].
  apply (@live_mode_conserves_lines Sample.rt Sample.cfg Sample.live_schedule
           (cycle_start Sample.cfg
              {| data := ["earlier"]; ticks := 0; trace := [] |})).
  vm_compute. reflexivity.
Defined.

(* ------------------------------------------------------------------ *)
(** ** One message, one line *)

Lemma all_chars_app (f : ascii -> bool) (a b : string) :
  all_chars f (a ++ b) = all_chars f a && all_chars f b.
Proof.
  induction a as [| c a IH]; cbn [append all_chars].
  - reflexivity.
  - rewrite IH. apply andb_assoc.
Qed.

Lemma no_newline_app (a b : string) :
  no_newline a = true -> no_newline b = true -> no_newline (a ++ b) = true.
Proof.
  unfold no_newline. intros Ha Hb. rewrite all_chars_app, Ha, Hb. reflexivity.
Qed.

Lemma no_newline_concat (sep : string) (l : list string) :
  no_newline sep = true ->
  Forall (fun s => no_newline s = true) l ->
  no_newline (String.concat sep l) = true.
Proof.
  intros Hs H. induction H as [| x l Hx Hl IH]; [reflexivity |].
  cbn [String.concat]. destruct l as [| y l']; [exact Hx |].
  apply no_newline_app; [exact Hx |]. apply no_newline_app; assumption.
Qed.

Lemma no_newline_uint (d : Decimal.uint) :
  no_newline (NilEmpty.string_of_uint d) = true.
Proof. induction d; cbn; try reflexivity; assumption. Qed.

Lemma no_newline_str_of_int (z : Z) : no_newline (str_of_int z) = true.
Proof.
  unfold str_of_int, NilZero.string_of_int, NilZero.string_of_uint.
  destruct (Z.to_int z) as [d | d]; destruct d;
    try reflexivity; apply (no_newline_uint (_ d)) || apply no_newline_uint.
Qed.

Lemma no_newline_escape_char (c : ascii) :
  no_newline (json_escape_char c) = true.
Proof.
  destruct c as [[] [] [] [] [] [] [] []]; vm_compute; reflexivity.
Qed.

Lemma no_newline_json_string (s : string) : no_newline (json_string s) = true.
Proof.
  unfold json_string. apply no_newline_app; [reflexivity |].
  apply no_newline_app; [| reflexivity].
  induction s as [| c s IH]; cbn [json_escape]; [reflexivity |].
  apply no_newline_app; [apply no_newline_escape_char | exact IH].
Qed.

Lemma no_newline_json_dumps rt :
  (forall q, no_newline (float_repr rt q) = true) ->
  forall (v : pyval) (level : nat),
    no_newline (json_dumps_at rt None level v) = true.
Proof.
  intros HF. fix IH 1. intros v level.
  destruct v as [| b | z | q | s | l | d].
  - reflexivity.
  - destruct b; reflexivity.
  - apply no_newline_str_of_int.
  - apply HF.
  - apply no_newline_json_string.
  - assert (FA : Forall (fun s => no_newline s = true)
                   (map (json_dumps_at rt None (S level)) l)).
    { induction l as [| a l IHl]; cbn [map]; constructor.
      - apply IH.
      - exact IHl. }
    destruct l as [| a l]; [reflexivity |].
    change (json_dumps_at rt None level (VList (a :: l)))
      with ("[" ++ "" ++ String.concat ", "
                   (map (json_dumps_at rt None (S level)) (a :: l))
                ++ "" ++ "]").
    apply no_newline_app; [reflexivity |].
    apply no_newline_app; [reflexivity |].
    apply no_newline_app; [| reflexivity].
    apply no_newline_concat; [reflexivity | exact FA].
  - assert (FA : Forall (fun s => no_newline s = true)
                   (map (fun kv => json_string (fst kv) ++ ": "
                                   ++ json_dumps_at rt None (S level) (snd kv))
                      d)).
    { induction d as [| [k x] d IHd]; cbn [map]; constructor.
      - cbn [fst snd]. apply no_newline_app; [apply no_newline_json_string |].
        apply no_newline_app; [reflexivity | apply IH].
      - exact IHd. }
    destruct d as [| kv d]; [reflexivity |].
    change (json_dumps_at rt None level (VDict (kv :: d)))
      with ("{" ++ "" ++ String.concat ", "
                   (map (fun kv => json_string (fst kv) ++ ": "
                                   ++ json_dumps_at rt None (S level) (snd kv))
                      (kv :: d))
                ++ "" ++ "}").
    apply no_newline_app; [reflexivity |].
    apply no_newline_app; [reflexivity |].
    apply no_newline_app; [| reflexivity].
    apply no_newline_concat; [reflexivity | exact FA].
Qed.

Lemma no_newline_message rt t (value : Z) (body : dict) :
  no_newline (nodename rt) = true ->
  no_newline (basename_file rt) = true ->
  no_newline (strftime_utc t) = true ->
  (forall q, no_newline (float_repr rt q) = true) ->
  no_newline
    (String.concat " "
       [header value t;
        nodename rt;
        basename_file rt ++ "[" ++ str_of_int (getpid rt) ++ "]:";
        "@cee:";
        json_dumps rt (VDict body)]) = true.
Proof.
  intros HN HB HT HF.
  apply no_newline_concat; [reflexivity |].
  repeat constructor.
  - unfold header. apply no_newline_app; [reflexivity |].
    apply no_newline_app; [apply no_newline_str_of_int |].
    apply no_newline_app; [reflexivity | exact HT].
  - exact HN.
  - apply no_newline_app; [exact HB |].
    apply no_newline_app; [reflexivity |].
    apply no_newline_app; [apply no_newline_str_of_int | reflexivity].
  - apply no_newline_json_dumps. exact HF.
Qed.

(** X16. A formatted message fits on one line: when the host name, the
    script's file name, the formatted time and the rendering of floats
    hold no newline, neither does the line [format_message] returns,
    whatever the strings inside the message: [json.dumps] escapes them. *)
Theorem format_message_single_line rt t (message : dict) (line : string) :
  no_newline (nodename rt) = true ->
  no_newline (basename_file rt) = true ->
  no_newline (strftime_utc t) = true ->
  (forall q, no_newline (float_repr rt q) = true) ->
  format_message rt t message = Ok line ->
  no_newline line = true.
Proof.
  intros HN HB HT HF E. unfold format_message in E.
  destruct (priority_value message) as [value |]; [| discriminate E].
  cbn [bind] in E.
  destruct (payload rt t message) as [body |]; [| discriminate E].
  cbn [bind] in E. injection E as <-.
  exact (@no_newline_message rt t value body HN HB HT HF).
Qed.

Lemma format_message_single_line_witness :
  exists line,
    format_message Sample.rt Sample.clock
      [("name", VStr "cpu"); ("readings", VList [VFloat 42; VFloat 44]);
       ("note", VStr ("two" ++ Sample.nl ++ "lines"))] = Ok line
    /\ no_newline line = true.
Proof.
  eexists. split; [vm_compute; reflexivity |].
  apply (@format_message_single_line Sample.rt Sample.clock
           [("name", VStr "cpu"); ("readings", VList [VFloat 42; VFloat 44]);
            ("note", VStr ("two" ++ Sample.nl ++ "lines"))]).
  - reflexivity.
  - reflexivity.
  - reflexivity.
  - intros q. cbn [float_repr Sample.rt]. unfold Sample.float_text.
    apply no_newline_app; [apply no_newline_str_of_int |].
    apply no_newline_app; [reflexivity | apply no_newline_str_of_int].
  - vm_compute. reflexivity.
Defined.

(* ------------------------------------------------------------------ *)
(** ** From one cycle to the next *)

Lemma sink_once_done d before after (l : loop) :
  sink_once d before after l -> cycle_done l = true ->
  sink_events (st l) = after.
Proof.
  intros [_ [(P & _ & _) | (_ & H)]] D.
  - rewrite (sink_pending_not_done _ D) in P. discriminate P.
  - exact H.
Qed.

Lemma send_data_dry_once rt cfg (d : list string) (before : list event) :
  forall s, data s = d -> sink_events s = before ->
    snd (send_data rt cfg true s) = Returned
    /\ sink_events (fst (send_data rt cfg true s))
       = (before
          ++ match d with
             | [] => []
             | _ :: _ =>
                 [EvPrint (json_dumps_at rt (Some 2%nat) 0
                             (VList (map VStr d)))]
             end)%list.
Proof.
  intros s HD HE. unfold send_data. rewrite HD.
  destruct d as [| line rest]; cbn [fst snd].
  - rewrite app_nil_r. split; [reflexivity | exact HE].
  - split; [reflexivity |].
    change (sink_events
              (emit (EvPrint (json_dumps_at rt (Some 2%nat) 0
                                (VList (map VStr (line :: rest))))) s)
            = (before ++ [EvPrint (json_dumps_at rt (Some 2%nat) 0
                                     (VList (map VStr (line :: rest))))])%list).
    rewrite sink_events_emit, HE. reflexivity.
Qed.

(** X17. In dry-run mode the output lags one cycle behind.  Take two
    cycles in a row, the first starting with an empty batch, each run by
    the loop in any order until every task has returned: nothing is printed
    during the first, and what has been printed by the end of the second is
    exactly the batch the first cycle left, the lines its collectors
    gathered (nothing when they gathered none). *)
Theorem dry_run_output_lags_one_cycle rt cfg (first second : list choice)
        (s : state) (l1 l2 : loop) :
  data s = [] ->
  exec rt cfg true first (cycle_start cfg s) = Some l1 ->
  cycle_done l1 = true ->
  exec rt cfg true second (cycle_start cfg (st l1)) = Some l2 ->
  cycle_done l2 = true ->
  sink_events (st l1) = sink_events s
  /\ sink_events (st l2)
     = (sink_events s
        ++ match data (st l1) with
           | [] => []
           | _ :: _ =>
               [EvPrint (json_dumps_at rt (Some 2%nat) 0
                           (VList (map VStr (data (st l1)))))]
           end)%list.
Proof.
  intros HD E1 D1 E2 D2.
  assert (I1 : sink_once (data s) (sink_events s)
                 (sink_events s
                  ++ match data s with
                     | [] => []
                     | _ :: _ =>
                         [EvPrint (json_dumps_at rt (Some 2%nat) 0
                                     (VList (map VStr (data s))))]
                     end)%list l1).
  { eapply sink_once_exec; [| apply sink_once_cycle_start | exact E1].
    apply send_data_dry_once. }
  apply sink_once_done in I1; [| exact D1].
  rewrite HD, app_nil_r in I1.
  split; [exact I1 |].
  rewrite <- I1.
  eapply sink_once_done; [| exact D2].
  eapply sink_once_exec; [| apply sink_once_cycle_start | exact E2].
  apply send_data_dry_once.
Qed.

Lemma dry_run_output_lags_one_cycle_witness :
  exists l1 l2,
    exec Sample.rt Sample.cfg true Sample.schedule
      (cycle_start Sample.cfg Sample.empty) = Some l1
    /\ exec Sample.rt Sample.cfg true Sample.schedule
         (cycle_start Sample.cfg (st l1)) = Some l2
    /\ List.length (data (st l1)) = 2%nat
    /\ sink_events (st l1) = []
    /\ sink_events (st l2)
       = [EvPrint (json_dumps_at Sample.rt (Some 2%nat) 0
                     (VList (map VStr (data (st l1)))))].
Proof.
  eexists. eexists.
  split; [vm_compute; reflexivity |].
  split; [vm_compute; reflexivity |].
  split; [reflexivity |].
  apply (@dry_run_output_lags_one_cycle Sample.rt Sample.cfg
           Sample.schedule Sample.schedule Sample.empty);
    vm_compute; reflexivity.
Defined.

(* ------------------------------------------------------------------ *)
(** ** [load_disk]: the model and the serial number *)

Lemma get_set_other (d : dict) (k k' : string) (v : pyval) :
  k <> k' -> Dict.get (Dict.set d k v) k' = Dict.get d k'.
Proof.
  intros N. rewrite get_set.
  destruct (String.eqb_spec k k'); [contradiction | reflexivity].
Qed.

Lemma get_set_same (d : dict) (k : string) (v : pyval) :
  Dict.get (Dict.set d k v) k = Some v.
Proof. rewrite get_set, String.eqb_refl. reflexivity. Qed.

(** One well-shaped row: what the loop body leaves under [model] and under
    [serial]. *)
Lemma scan_row_labels (message : dict) (line : list string) :
  row_ok line = true ->
  exists message',
    scan_row message line = Ok message'
    /\ Dict.get message' "model"
       = (if is_label "Device" "Model:" line
          then Some (VStr (String.concat " " (skipn 2 line)))
          else Dict.get message "model")
    /\ Dict.get message' "serial"
       = (if is_label "Serial" "Number:" line
          then Some (VStr (String.concat " " (skipn 2 line)))
          else Dict.get message "serial").
Proof.
  intros HW. unfold scan_row.
  unfold row_ok, is_attribute_row, is_label_row, is_label in *.
  destruct line as [| t [| b row]].
  - exists message. repeat split; reflexivity.
  - cbn [nonempty andb head_is second_is List.length Nat.leb nth_error] in *.
    destruct (String.eqb t "190" || String.eqb t "194");
      [discriminate HW |].
    destruct (String.eqb t "Device"); [discriminate HW |].
    destruct (String.eqb t "Serial"); [discriminate HW |].
    exists message. repeat split; reflexivity.
  - cbn [nonempty andb head_is second_is] in *.
    set (line := t :: b :: row) in *.
    assert (I1 : index line 1 = Ok b) by reflexivity.
    rewrite I1. cbn [bind].
    assert (A : exists m0,
               (if String.eqb t "190" || String.eqb t "194"
                then tok <- index line 9 ;; n <- py_int tok ;;
                     Ok (Dict.set message "readings" (VList [VInt n]))
                else Ok message) = Ok m0
               /\ Dict.get m0 "model" = Dict.get message "model"
               /\ Dict.get m0 "serial" = Dict.get message "serial").
    { apply andb_true_iff in HW as [HW1 _].
      destruct (String.eqb t "190" || String.eqb t "194").
      - unfold index. destruct (nth_error line 9) as [tok |];
          [| discriminate HW1].
        cbn [bind]. destruct (py_int tok) as [n |]; [| discriminate HW1].
        cbn [bind]. eexists. split; [reflexivity |].
        rewrite !get_set_other by discriminate. split; reflexivity.
      - exists message. repeat split; reflexivity. }
    destruct A as (m0 & -> & M0 & S0). cbn [bind].
    destruct (String.eqb t "Device"), (String.eqb t "Serial"),
      (String.eqb b "Model:"), (String.eqb b "Number:");
      cbn [and_then bind andb]; eexists; (split; [reflexivity |]);
      rewrite ?get_set_same, ?get_set_other by discriminate;
      rewrite ?get_set_same, ?get_set_other by discriminate;
      split; first [reflexivity | assumption].
Qed.

Lemma scan_rows_labels (rows : list (list string)) : forall message,
  forallb row_ok rows = true ->
  exists final,
    scan_rows message rows = Ok final
    /\ (existsb (is_label "Device" "Model:") rows = false ->
        Dict.get final "model" = Dict.get message "model")
    /\ (existsb (is_label "Serial" "Number:") rows = false ->
        Dict.get final "serial" = Dict.get message "serial").
Proof.
  induction rows as [| row rows IH]; intros message HW.
  - exists message. repeat split; reflexivity.
  - cbn [forallb existsb scan_rows] in *.
    apply andb_true_iff in HW as [HW1 HW2].
    destruct (scan_row_labels message row HW1) as (m1 & -> & M1 & S1).
    cbn [bind].
    destruct (IH m1 HW2) as (final & -> & M2 & S2).
    exists final. split; [reflexivity | split]; intros E;
      apply orb_false_iff in E as [E1 E2]; rewrite E1 in *.
    + rewrite (M2 E2). exact M1.
    + rewrite (S2 E2). exact S1.
Qed.

(** X18. On an output every line of which decodes and whose rows have the
    shape the parser relies on, the message holds under [model] the tokens
    that follow [Device Model:] in the last row that starts with these two
    tokens, joined by single spaces; and likewise under [serial] those
    that follow [Serial Number:]. *)
Theorem disk_message_labels rt (disk_name stdout : string)
        (pre : list (list string)) (row : list string)
        (post : list (list string)) (key first second : string) :
  (key, first, second) = ("model", "Device", "Model:")
  \/ (key, first, second) = ("serial", "Serial", "Number:") ->
  table rt stdout = Ok (pre ++ row :: post)%list ->
  forallb row_ok (pre ++ row :: post)%list = true ->
  is_label first second row = true ->
  existsb (is_label first second) post = false ->
  exists message,
    disk_message rt disk_name stdout = Ok message
    /\ Dict.get message key
       = Some (VStr (String.concat " " (skipn 2 row))).
Proof.
  intros HK HL HW HR HP.
  rewrite (@disk_message_rows rt disk_name stdout _ HL).
  rewrite forallb_app in HW. cbn [forallb] in HW.
  apply andb_true_iff in HW as [HW1 HW2].
  apply andb_true_iff in HW2 as [HW2 HW3].
  rewrite scan_rows_app.
  destruct (scan_rows_ok pre [("name", VStr disk_name)] HW1)
    as (m1 & -> & _ & _).
  cbn [bind scan_rows].
  destruct (scan_row_labels m1 row HW2) as (m2 & -> & M2 & S2).
  cbn [bind].
  destruct (scan_rows_labels post m2 HW3) as (final & -> & M3 & S3).
  exists final. split; [reflexivity |].
  destruct HK as [HK | HK]; injection HK as -> -> ->.
  - rewrite (M3 HP), M2, HR. reflexivity.
  - rewrite (S3 HP), S2, HR. reflexivity.
Qed.

Lemma disk_message_labels_witness :
  exists message,
    disk_message Sample.rt "sda" Sample.smartctl_output = Ok message
    /\ Dict.get message "model" = Some (VStr "WDC WD10EZEX").
Proof.
  apply (@disk_message_labels Sample.rt "sda" Sample.smartctl_output
           [] (split "Device Model:     WDC WD10EZEX")
           (List.tl (map split (splitlines Sample.smartctl_output)))
           "model" "Device" "Model:");
    first [left; reflexivity | vm_compute; reflexivity].
Defined.

(* ------------------------------------------------------------------ *)
(** ** A disk without a device *)

Lemma load_disk_command_error cfg (m : string) (e : exc) :
  load_disk_command cfg m = Err e -> e = KeyError.
Proof.
  unfold load_disk_command, lookup.
  destruct (assoc (disk_devices cfg) m); cbn [bind]; [discriminate |].
  destruct (assoc (disk_devices cfg) "__default__"); cbn [bind];
    [discriminate |].
  intros H. injection H as <-. reflexivity.
Qed.

Lemma resume_unconfigured_disk rt cfg (dry_run : bool) (n resp : string)
      (s : state) :
  assoc (disk_devices cfg) n = None ->
  assoc (disk_devices cfg) "__default__" = None ->
  resume rt cfg dry_run (DiskStart n) resp s = (s, Raised KeyError).
Proof.
  intros H1 H2. cbn [resume]. unfold load_disk_command, lookup.
  rewrite H1, H2. reflexivity.
Qed.

(** A collector that starts either is suspended or raises [KeyError]. *)
Lemma resume_start_outcome rt cfg (dry_run : bool) (p : pc) (resp : string)
      (s : state) :
  is_start p = true ->
  snd (resume rt cfg dry_run p resp s) = Raised KeyError
  \/ (exists m, snd (resume rt cfg dry_run p resp s) = DiskSpawning m)
  \/ snd (resume rt cfg dry_run p resp s) = SensorsSpawning.
Proof.
  intros Hp. destruct p; try discriminate Hp; cbn [resume].
  - destruct (load_disk_command cfg disk_name) as [cmd | e] eqn:E.
    + right. left. exists disk_name. reflexivity.
    + left. rewrite (load_disk_command_error _ _ E). reflexivity.
  - right. right. reflexivity.
Qed.

Lemma disk_pending_app (n : string) (r : list (pc * string))
      (e : pc * string) :
  disk_pending n r = true -> disk_pending n (r ++ [e]) = true.
Proof.
  induction r as [| [p resp] r IH]; cbn [disk_pending app];
    [discriminate |].
  intros H. apply andb_true_iff in H as [H1 H2]. rewrite H1. cbn [andb].
  apply orb_true_iff in H2 as [H2 | H2].
  - rewrite H2. reflexivity.
  - rewrite (IH H2). apply orb_true_r.
Qed.

Lemma disk_pending_gathered (n : string) (names : list string)
      (tail : list pc) :
  In n names ->
  disk_pending n (map (fun p => (p, "")) (map DiskStart names ++ tail)%list)
  = true.
Proof.
  induction names as [| m names IH]; intros HIn; [destruct HIn |].
  cbn [map app disk_pending is_start andb].
  destruct HIn as [-> | HIn].
  - rewrite String.eqb_refl. reflexivity.
  - rewrite (IH HIn). apply orb_true_r.
Qed.

Lemma unconfigured_disk_step rt cfg (dry_run : bool) (n : string) (c : choice)
      (l l' : loop) :
  assoc (disk_devices cfg) n = None ->
  assoc (disk_devices cfg) "__default__" = None ->
  disk_pending n (ready l) = true ->
  exec_choice rt cfg dry_run c l = Some l' ->
  (failure l' = Some KeyError
   \/ (failure l' = None /\ disk_pending n (ready l') = true))
  /\ data (st l') = data (st l)
  /\ sink_events (st l') = sink_events (st l).
Proof.
  intros H1 H2 HP E. unfold exec_choice in E.
  destruct (failure l); [discriminate E |].
  destruct c as [| i resp].
  - destruct (ready l) as [| [p resp] rest]; [discriminate E |].
    cbn [disk_pending] in HP. apply andb_true_iff in HP as [Hs HP].
    pose proof (@resume_start rt cfg dry_run p resp (st l) Hs) as D.
    destruct (@resume_collector rt cfg dry_run p resp (st l)
                (is_start_collector _ Hs)) as [_ S].
    pose proof (@resume_start_outcome rt cfg dry_run p resp (st l) Hs) as O.
    assert (B : snd (resume rt cfg dry_run p resp (st l)) = Raised KeyError
                \/ disk_pending n rest = true).
    { apply orb_true_iff in HP as [HP | HP]; [| right; exact HP].
      left. destruct p; try discriminate HP.
      apply String.eqb_eq in HP. subst disk_name.
      rewrite (@resume_unconfigured_disk rt cfg dry_run n resp (st l) H1 H2).
      reflexivity. }
    destruct (resume rt cfg dry_run p resp (st l)) as [s' p'].
    cbn [fst snd] in *.
    destruct O as [-> | [[m ->] | ->]]; injection E as <-; cbn [st failure ready];
      (split; [| split; assumption]).
    + left. reflexivity.
    + destruct B as [B | B]; [discriminate B | right; split; [reflexivity | exact B]].
    + destruct B as [B | B]; [discriminate B | right; split; [reflexivity | exact B]].
  - destruct (nth_error (blocked l) i) as [p |]; [| discriminate E].
    injection E as <-. cbn [st failure ready].
    split; [| split; reflexivity].
    right. split; [reflexivity |]. apply disk_pending_app. exact HP.
Qed.

(** X19. When a configured disk has no entry in [disk_devices] and there
    is no [__default__] entry, a cycle never completes, whatever the order
    in which the loop runs the tasks: [gather] fails with [KeyError], and
    up to that point nothing has been added to the batch and nothing has
    been printed or sent. *)
Theorem cycle_unconfigured_disk_fails rt cfg (dry_run : bool)
        (schedule : list choice) (n : string) (s : state) (l : loop) :
  In n (disk_names cfg) ->
  assoc (disk_devices cfg) n = None ->
  assoc (disk_devices cfg) "__default__" = None ->
  exec rt cfg dry_run schedule (cycle_start cfg s) = Some l ->
  cycle_done l = false
  /\ (failure l = None \/ failure l = Some KeyError)
  /\ data (st l) = data s
  /\ sink_events (st l) = sink_events s.
Proof.
  intros HIn H1 H2.
  assert (G : forall sched (l0 l1 : loop),
             failure l0 = None -> disk_pending n (ready l0) = true ->
             exec rt cfg dry_run sched l0 = Some l1 ->
             (failure l1 = Some KeyError
              \/ (failure l1 = None /\ disk_pending n (ready l1) = true))
             /\ data (st l1) = data (st l0)
             /\ sink_events (st l1) = sink_events (st l0)).
  { induction sched as [| c sched IH]; intros l0 l1 F P E; cbn [exec] in E.
    - injection E as <-. repeat split; auto.
    - destruct (exec_choice rt cfg dry_run c l0) as [l2 |] eqn:E2;
        [| discriminate E].
      destruct (@unconfigured_disk_step rt cfg dry_run n c l0 l2 H1 H2 P E2)
        as ([F2 | [F2 P2]] & D2 & S2).
      + destruct sched as [| c' sched]; cbn [exec] in E.
        * injection E as <-. repeat split; auto.
        * unfold exec_choice in E. rewrite F2 in E. discriminate E.
      + destruct (IH l2 l1 F2 P2 E) as (R & D & S).
        split; [exact R |]. rewrite D, S. split; assumption. }
  intros E.
  destruct (G schedule (cycle_start cfg s) l eq_refl
              (disk_pending_gathered n (disk_names cfg)
                 [SensorsStart; SinkStart] HIn) E)
    as (R & D & S).
  cbn [cycle_start st] in D, S.
  split; [| split; [| split; assumption]].
  - unfold cycle_done. destruct R as [F | [F P]].
    + rewrite F. destruct (ready l), (blocked l); reflexivity.
    + destruct (ready l); [discriminate P | reflexivity].
  - destruct R as [F | [F _]]; [right | left]; exact F.
Qed.

Lemma cycle_unconfigured_disk_fails_witness :
  exists l,
    exec Sample.rt Sample.two_disks false [RunNext; RunNext]
      (cycle_start Sample.two_disks Sample.empty) = Some l
    /\ failure l = Some KeyError
    /\ cycle_done l = false
    /\ data (st l) = []
    /\ sink_events (st l) = [].
Proof.
  eexists.
  split; [vm_compute; reflexivity |]. split; [reflexivity |].
  destruct (@cycle_unconfigured_disk_fails Sample.rt Sample.two_disks false
              [RunNext; RunNext] "sdb" Sample.empty _
              (or_intror (or_introl eq_refl)) eq_refl eq_refl eq_refl)
    as (A & _ & B & C).
  repeat split; assumption.
Defined.

(* ------------------------------------------------------------------ *)
(** ** The cycle and the batch *)

Lemma appended_collector rt cfg (dry_run : bool) (p : pc) (resp : string)
      (s : state) :
  is_collector p = true ->
  data (fst (resume rt cfg dry_run p resp s))
  = (data s ++ appended rt cfg dry_run p resp s)%list.
Proof.
  intros Hp. unfold appended. rewrite Hp.
  destruct (resume_collector_data rt cfg dry_run p resp s Hp) as [added D].
  rewrite D, skipn_length_app. reflexivity.
Qed.

Lemma appended_start rt cfg (dry_run : bool) (p : pc) (resp : string)
      (s : state) :
  is_start p = true -> appended rt cfg dry_run p resp s = [].
Proof.
  intros Hp. unfold appended. rewrite (is_start_collector _ Hp).
  rewrite (@resume_start rt cfg dry_run p resp s Hp).
  rewrite <- (app_nil_r (data s)) at 2. apply skipn_length_app.
Qed.

(** Once no task of the sink is left, the batch grows by what the
    collectors add, and by nothing else. *)
Lemma collectors_exec rt cfg (dry_run : bool) (schedule : list choice) :
  forall l l' : loop,
    forallb is_collector (blocked l) = true ->
    forallb (fun e => is_collector (fst e)) (ready l) = true ->
    exec rt cfg dry_run schedule l = Some l' ->
    data (st l')
    = (data (st l) ++ collected rt cfg dry_run schedule l)%list.
Proof.
  induction schedule as [| c schedule IH]; intros l l' HB HR E;
    cbn [exec collected] in *.
  - injection E as <-. rewrite app_nil_r. reflexivity.
  - destruct (exec_choice rt cfg dry_run c l) as [l1 |] eqn:E1;
      [| discriminate E].
    destruct c as [| i resp].
    + destruct (run_next_shape _ _ _ _ E1)
        as (p & resp & rest & Rl & Sl & Rl' & Bl).
      rewrite Rl in *. cbn [forallb fst] in HR.
      apply andb_true_iff in HR as [Hp Hrest].
      destruct (@resume_collector rt cfg dry_run p resp (st l) Hp) as [C1 _].
      rewrite (IH l1 l' ); [| | | exact E].
      * rewrite Sl, (appended_collector rt cfg dry_run p resp (st l) Hp).
        rewrite app_assoc. reflexivity.
      * destruct Bl as [-> | ->]; [exact HB |].
        rewrite forallb_app, HB. cbn. rewrite C1. reflexivity.
      * rewrite Rl'. exact Hrest.
    + destruct (complete_shape _ _ _ _ _ _ E1) as (p & Np & Sl & Rl' & Bl).
      rewrite (IH l1 l'); [| | | exact E].
      * rewrite Sl. destruct (ready l); reflexivity.
      * rewrite Bl. apply forallb_remove_nth. exact HB.
      * rewrite Rl', forallb_app, HR. cbn.
        rewrite (forallb_nth_error _ _ _ HB Np). reflexivity.
Qed.

(** While [send_data] is still to start, behind collectors that are still
    to start, and the batch is empty: the batch is what the collectors
    add. *)
Lemma pending_exec rt cfg (dry_run : bool) (schedule : list choice) :
  forall l l' : loop,
    forallb is_collector (blocked l) = true ->
    sink_pending (ready l) = true ->
    data (st l) = [] ->
    exec rt cfg dry_run schedule l = Some l' ->
    data (st l') = collected rt cfg dry_run schedule l.
Proof.
  induction schedule as [| c schedule IH]; intros l l' HB HP HD E;
    cbn [exec collected] in *.
  - injection E as <-. exact HD.
  - destruct (exec_choice rt cfg dry_run c l) as [l1 |] eqn:E1;
      [| discriminate E].
    destruct c as [| i resp].
    + destruct (run_next_shape _ _ _ _ E1)
        as (p & resp & rest & Rl & Sl & Rl' & Bl).
      rewrite Rl in *. apply sink_pending_head in HP.
      destruct HP as [[-> HC] | [HP1 HP2]].
      * (* send_data runs on the empty batch *)
        cbn [resume] in Sl, Bl. unfold send_data in Sl, Bl.
        rewrite HD in Sl, Bl. cbn [fst snd] in Sl, Bl.
        unfold appended. cbn [is_collector app].
        rewrite (@collectors_exec rt cfg dry_run schedule l1 l');
          [rewrite Sl, HD; reflexivity | | | exact E].
        -- destruct Bl as [-> | ->]; [exact HB |].
           rewrite forallb_app, HB. reflexivity.
        -- rewrite Rl'. exact HC.
      * rewrite (appended_start rt cfg dry_run p resp (st l) HP1).
        cbn [app].
        destruct (@resume_collector rt cfg dry_run p resp (st l)
                    (is_start_collector _ HP1)) as [C1 _].
        apply (IH l1 l'); [| | | exact E].
        -- destruct Bl as [-> | ->]; [exact HB |].
           rewrite forallb_app, HB. cbn. rewrite C1. reflexivity.
        -- rewrite Rl'. exact HP2.
        -- rewrite Sl, (@resume_start rt cfg dry_run p resp (st l) HP1).
           exact HD.
    + destruct (complete_shape _ _ _ _ _ _ E1) as (p & Np & Sl & Rl' & Bl).
      replace (match ready l with
               | [] => []
               | (p0, resp0) :: _ => []
               end ++ collected rt cfg dry_run schedule l1)%list
        with (collected rt cfg dry_run schedule l1)
        by (destruct (ready l) as [| [? ?] ?]; reflexivity).
      apply (IH l1 l'); [| | | exact E].
      * rewrite Bl. apply forallb_remove_nth. exact HB.
      * rewrite Rl'. apply sink_pending_app; [exact HP |].
        exact (forallb_nth_error _ _ _ HB Np).
      * rewrite Sl. exact HD.
Qed.

(** C1, as stated, fails: in this cycle, which starts with an empty batch,
    [send_data] takes its only step third, before the disk tool and the
    sensor tool have answered; it sends nothing, and when every task has
    returned the batch holds the two lines the collectors added. *)
Lemma cycle_ends_with_unsent_batch :
  exists l,
    exec Sample.rt Sample.cfg false Sample.schedule
      (cycle_start Sample.cfg Sample.empty) = Some l
    /\ cycle_done l = true
    /\ List.length (data (st l)) = 2%nat
    /\ trace (st l)
       = [EvShell "sudo smartctl -Ai  /dev/sda"; EvShell "sensors -j"]
    /\ exec Sample.rt Sample.cfg false [RunNext; RunNext; RunNext]
         (cycle_start Sample.cfg Sample.empty)
       = Some {| st := {| data := []; ticks := 0;
                          trace := [EvShell "sudo smartctl -Ai  /dev/sda";
                                    EvShell "sensors -j"] |};
                 ready := [];
                 blocked := [DiskSpawning "sda"; SensorsSpawning];
                 failure := None |}.
Proof.
  eexists. split; [vm_compute; reflexivity |].
  repeat split; vm_compute; reflexivity.
Qed.

Lemma resume_not_sink_start rt cfg (dry_run : bool) (p : pc) (resp : string)
      (s : state) :
  snd (resume rt cfg dry_run p resp s) <> SinkStart.
Proof.
  destruct p; cbn [resume].
  - destruct (load_disk_command cfg disk_name); discriminate.
  - discriminate.
  - unfold finish. destruct (snd (load_disk rt disk_name resp s)); discriminate.
  - discriminate.
  - discriminate.
  - unfold finish. destruct (snd (load_sensors rt cfg resp s)); discriminate.
  - unfold send_data. destruct (data s); [discriminate |].
    destruct dry_run; discriminate.
  - unfold send_data_loop. destruct (data s); discriminate.
  - unfold send_data_loop. destruct (data s); discriminate.
  - discriminate.
  - discriminate.
  - discriminate.
Qed.

Lemma collector_not_sink_start (p : pc) :
  is_collector p = true -> p <> SinkStart.
Proof. intros H E. subst p. discriminate H. Qed.

Lemma sink_pending_has_start (r : list (pc * string)) :
  sink_pending r = true -> ~ Forall (fun e => fst e <> SinkStart) r.
Proof.
  induction r as [| [p resp] r IH]; [discriminate |].
  intros H F. inversion F as [| ? ? Hp Hr]; subst. cbn [fst] in Hp.
  apply sink_pending_head in H. destruct H as [[E _] | [_ H]].
  - contradiction.
  - exact (IH H Hr).
Qed.

Lemma forallb_not_sink_start (l : list pc) :
  forallb is_collector l = true -> Forall (fun p => p <> SinkStart) l.
Proof.
  induction l as [| p l IH]; intros H; constructor;
    cbn [forallb] in H; apply andb_true_iff in H as [H1 H2].
  - apply collector_not_sink_start. exact H1.
  - apply IH. exact H2.
Qed.

Lemma forallb_entries_not_sink_start (r : list (pc * string)) :
  forallb (fun e => is_collector (fst e)) r = true ->
  Forall (fun e => fst e <> SinkStart) r.
Proof.
  induction r as [| e r IH]; intros H; constructor;
    cbn [forallb] in H; apply andb_true_iff in H as [H1 H2].
  - apply collector_not_sink_start. exact H1.
  - apply IH. exact H2.
Qed.

(** Until [send_data] takes its first step the batch and what the sink
    has done are as the cycle found them; this step is never taken
    twice. *)
Lemma before_sink_exec rt cfg (dry_run : bool) (d : list string)
      (before : list event) (schedule : list choice) :
  forall l l' : loop,
    (sink_pending (ready l) = true
     /\ forallb is_collector (blocked l) = true
     /\ data (st l) = d /\ sink_events (st l) = before)
    \/ (Forall (fun e => fst e <> SinkStart) (ready l)
        /\ Forall (fun p => p <> SinkStart) (blocked l)) ->
    exec rt cfg dry_run schedule l = Some l' ->
    (sink_pending (ready l') = true
     /\ forallb is_collector (blocked l') = true
     /\ data (st l') = d /\ sink_events (st l') = before)
    \/ (Forall (fun e => fst e <> SinkStart) (ready l')
        /\ Forall (fun p => p <> SinkStart) (blocked l')).
Proof.
  induction schedule as [| c schedule IH]; intros l l' J E; cbn [exec] in E.
  - injection E as <-. exact J.
  - destruct (exec_choice rt cfg dry_run c l) as [l1 |] eqn:E1;
      [| discriminate E].
    apply (IH l1 l'); [| exact E]. clear IH E.
    destruct c as [| i resp].
    + destruct (run_next_shape _ _ _ _ E1)
        as (p & resp & rest & Rl & Sl & Rl' & Bl).
      rewrite Rl in J.
      pose proof (@resume_not_sink_start rt cfg dry_run p resp (st l)) as NS.
      destruct J as [(HP & HB & HD & HE) | (HR & HB)].
      * apply sink_pending_head in HP.
        destruct HP as [[-> HC] | [HP1 HP2]].
        -- right. rewrite Rl'. split.
           ++ apply forallb_entries_not_sink_start. exact HC.
           ++ destruct Bl as [-> | ->].
              ** apply forallb_not_sink_start. exact HB.
              ** apply Forall_app. split;
                   [apply forallb_not_sink_start; exact HB |].
                 constructor; [exact NS | constructor].
        -- left.
           destruct (@resume_collector rt cfg dry_run p resp (st l)
                       (is_start_collector _ HP1)) as [C1 C2].
           rewrite Rl', Sl. repeat split.
           ++ exact HP2.
           ++ destruct Bl as [-> | ->]; [exact HB |].
              rewrite forallb_app, HB. cbn. rewrite C1. reflexivity.
           ++ rewrite (@resume_start rt cfg dry_run p resp (st l) HP1).
              exact HD.
           ++ rewrite C2. exact HE.
      * right. apply Forall_inv_tail in HR.
        rewrite Rl'. split; [exact HR |].
        destruct Bl as [-> | ->]; [exact HB |].
        apply Forall_app. split; [exact HB |].
        constructor; [exact NS | constructor].
    + destruct (complete_shape _ _ _ _ _ _ E1) as (p & Np & Sl & Rl' & Bl).
      destruct J as [(HP & HB & HD & HE) | (HR & HB)].
      * left. rewrite Rl', Sl, Bl. repeat split; try assumption.
        -- apply sink_pending_app; [exact HP |].
           exact (forallb_nth_error _ _ _ HB Np).
        -- apply forallb_remove_nth. exact HB.
      * right. rewrite Rl', Bl.
        assert (Hp : p <> SinkStart).
        { apply nth_error_In in Np.
          rewrite Forall_forall in HB. exact (HB p Np). }
        split.
        -- apply Forall_app. split; [exact HR |].
           constructor; [exact Hp | constructor].
        -- clear - HB. revert i.
           induction (blocked l) as [| q b IHb]; intros [| i];
             cbn [remove_nth]; try constructor;
             inversion HB; subst; auto.
Qed.

(** C1, amended. [send_data] is one of the tasks [main] gathers, next to
    the collectors and with nothing to make it wait for them.  Whatever
    the order in which the loop runs the tasks, and in both modes: as long
    as [send_data] has not taken its first step, the batch is as the cycle
    found it and nothing has been printed or sent, so its first step sees
    the batch of the previous cycle and not the one being collected.  In a
    cycle that starts with an empty batch nothing is printed, no
    connection is opened and nothing is written, and at every point of
    the cycle the batch holds exactly the lines the collectors have added
    so far, in the order in which they added them; that batch is what the
    next cycle starts with. *)
Theorem cycle_sink_among_collectors rt cfg (dry_run : bool)
        (schedule : list choice) (s : state) (l : loop) :
  exec rt cfg dry_run schedule (cycle_start cfg s) = Some l ->
  (sink_pending (ready l) = true ->
   data (st l) = data s /\ sink_events (st l) = sink_events s)
  /\ (data s = [] ->
      sink_events (st l) = sink_events s
      /\ data (st l) = collected rt cfg dry_run schedule (cycle_start cfg s)).
Proof.
  intros E. split.
  - intros P.
    destruct (@before_sink_exec rt cfg dry_run (data s) (sink_events s)
                schedule (cycle_start cfg s) l) as [(_ & _ & D & S) | (F & _)].
    + left. repeat split. apply sink_pending_gathered.
    + exact E.
    + split; assumption.
    + exfalso. exact (sink_pending_has_start P F).
  - intros HD. split.
    + assert (I : sink_once (data s) (sink_events s) (sink_events s) l).
      { eapply sink_once_exec; [| apply sink_once_cycle_start | exact E].
        intros s0 H0 H1. unfold send_data. rewrite H0, HD.
        cbn [fst snd]. split; [reflexivity | exact H1]. }
      destruct I as [_ [(_ & _ & H) | (_ & H)]]; exact H.
    + apply (@pending_exec rt cfg dry_run schedule (cycle_start cfg s) l);
        [reflexivity | apply sink_pending_gathered | exact HD | exact E].
Qed.

Lemma cycle_sink_among_collectors_witness :
  (exists l,
      exec Sample.rt Sample.cfg true [RunNext; RunNext]
        (cycle_start Sample.cfg
           {| data := ["earlier"]; ticks := 0; trace := [] |}) = Some l
      /\ sink_pending (ready l) = true
      /\ data (st l) = ["earlier"]
      /\ sink_events (st l) = [])
  /\ exists l,
       exec Sample.rt Sample.cfg true Sample.schedule
         (cycle_start Sample.cfg Sample.empty) = Some l
       /\ cycle_done l = true
       /\ List.length
            (collected Sample.rt Sample.cfg true Sample.schedule
               (cycle_start Sample.cfg Sample.empty)) = 2%nat
       /\ sink_events (st l) = []
       /\ data (st l)
          = collected Sample.rt Sample.cfg true Sample.schedule
              (cycle_start Sample.cfg Sample.empty).
Proof.
  split.
  - eexists. split; [vm_compute; reflexivity |].
    split; [reflexivity |].
    refine (proj1 (@cycle_sink_among_collectors Sample.rt Sample.cfg true
                     [RunNext; RunNext]
                     {| data := ["earlier"]; ticks := 0; trace := [] |} _ _)
              _);
      [vm_compute; reflexivity | reflexivity].
  - eexists. split; [vm_compute; reflexivity |].
    split; [reflexivity |]. split; [vm_compute; reflexivity |].
    refine (proj2 (@cycle_sink_among_collectors Sample.rt Sample.cfg true
                     Sample.schedule Sample.empty _ _) _);
      [vm_compute; reflexivity | reflexivity].
Defined.
